(** * Bedrock Linux userland: bru (union filesystem) and brc (chroot switch)

  A shallow embedding of [src/bru/bru.c] and [src/brc/brc.c].

  C strings are [string]s holding the bytes before the terminating NUL,
  C integers are [Z] with the conversions between [int], [size_t] and
  [uint64_t] written out, and the system calls the programs make are the
  operations of a [Kernel] interface threaded through explicit state. *)

From Stdlib Require Import ZArith Ascii String List Lia.
From stdpp Require Import base option list strings gmap.

Local Open Scope string_scope.
Local Open Scope list_scope.
Local Open Scope Z_scope.

(** ** C integers *)

Module CInt.

(** Conversion to [int] (32 bits, two's complement). *)
Definition to_int (z : Z) : Z := (z + 2 ^ 31) mod 2 ^ 32 - 2 ^ 31.

(** Conversion to [uint64_t] / [size_t]. *)
Definition to_uint64 (z : Z) : Z := z mod 2 ^ 64.

End CInt.

(** Error numbers of <errno.h> used below. *)
Definition ENOENT : Z := 2.
Definition EBADF : Z := 9.
Definition EACCES : Z := 13.
Definition EEXIST : Z := 17.
Definition EXDEV : Z := 18.
Definition ENOTDIR : Z := 20.
Definition EISDIR : Z := 21.
Definition EINVAL : Z := 22.

(** ** C strings *)

Module CStr.

Definition NUL : ascii := Ascii.zero.
Definition SLASH : ascii := "/"%char.

Definition byte_val (c : ascii) : Z := Z.of_N (N_of_ascii c).

(** A [string] stands for a C string when none of its bytes is the
    terminator. *)
Fixpoint cstring (s : string) : Prop :=
  match s with
  | EmptyString => True
  | String c r => c <> NUL /\ cstring r
  end.

Definition strlen (s : string) : nat := String.length s.

(** [s[i]]: a byte of the string, or its terminator at [i = strlen s]. *)
Definition char_at (s : string) (i : nat) : ascii :=
  match String.get i s with
  | Some c => c
  | None => NUL
  end.

Fixpoint strncmp (s1 s2 : string) (n : nat) : Z :=
  match n with
  | O => 0
  | S n' =>
      match s1, s2 with
      | EmptyString, EmptyString => 0
      | EmptyString, String c2 _ => - byte_val c2
      | String c1 _, EmptyString => byte_val c1
      | String c1 r1, String c2 r2 =>
          if decide (c1 = c2)
          then (if decide (c1 = NUL) then 0 else strncmp r1 r2 n')
          else byte_val c1 - byte_val c2
      end
  end.

Fixpoint strcmp (s1 s2 : string) : Z :=
  match s1, s2 with
  | EmptyString, EmptyString => 0
  | EmptyString, String c2 _ => - byte_val c2
  | String c1 _, EmptyString => byte_val c1
  | String c1 r1, String c2 r2 =>
      if decide (c1 = c2)
      then (if decide (c1 = NUL) then 0 else strcmp r1 r2)
      else byte_val c1 - byte_val c2
  end.

Definition strcat (s1 s2 : string) : string := s1 +:+ s2.

End CStr.
Import CStr.

(** ** The union filesystem, [src/bru/bru.c] *)

Module Bru.
Import CInt.

(** *** The kernel as the program sees it *)

Record stat := { st_dev : Z; st_ino : Z; st_mode : Z; st_size : Z }.

(** The optional trailing argument of [openat(2)], as the caller passes
    it.  The callee reads it as a [mode_t]. *)
Inductive vararg :=
| VaNone
| VaMode (m : Z)
| VaStat (s : stat).

Record fuse_context := { uid : Z; gid : Z }.

(** [struct fuse_file_info]: the open flags and the [uint64_t] handle. *)
Record fuse_file_info := { flags : Z; fh : Z }.

Definition set_fh (fi : fuse_file_info) (v : Z) : fuse_file_info :=
  {| flags := flags fi; fh := v |}.

Definition O_RDONLY : Z := 0.
Definition O_WRONLY : Z := 1.
Definition O_CREAT : Z := 64.
Definition O_TRUNC : Z := 512.
Definition O_DIRECTORY : Z := 65536.
Definition AT_SYMLINK_NOFOLLOW : Z := 256.

(** System calls return their C result and the next kernel state; a
    failing call returns a negative result and leaves its error number in
    [errno].  Calls that fill a caller's buffer return the buffer contents
    too.  [sys_opendir] returns the directory stream (the names [readdir(3)]
    will hand out, in order), or [None] for a null stream. *)
Class Kernel (K : Type) := {
  errno : K -> Z;
  sys_getuid : K -> Z * K;
  sys_setegid : Z -> K -> Z * K;
  sys_seteuid : Z -> K -> Z * K;
  sys_fchdir : Z -> K -> Z * K;
  sys_lstat : string -> K -> (Z * stat) * K;
  sys_readlink : string -> Z -> K -> (Z * list ascii) * K;
  sys_renameat : Z -> string -> Z -> string -> K -> Z * K;
  sys_unlinkat : Z -> string -> Z -> K -> Z * K;
  sys_fstatat : Z -> string -> Z -> K -> (Z * stat) * K;
  sys_openat : Z -> string -> Z -> vararg -> K -> Z * K;
  sys_read : Z -> Z -> K -> (Z * list ascii) * K;
  sys_write : Z -> list ascii -> Z -> K -> Z * K;
  sys_close : Z -> K -> Z * K;
  sys_open : string -> Z -> K -> Z * K;
  sys_pread : Z -> Z -> Z -> K -> (Z * list ascii) * K;
  sys_pwrite : Z -> list ascii -> Z -> Z -> K -> Z * K;
  sys_fsync : Z -> K -> Z * K;
  sys_fdatasync : Z -> K -> Z * K;
  sys_creat : string -> Z -> K -> Z * K;
  sys_ftruncate : Z -> Z -> K -> Z * K;
  sys_fstat : Z -> K -> (Z * stat) * K;
  sys_faccessat : Z -> string -> Z -> Z -> K -> Z * K;
  sys_opendir : string -> K -> option (list string) * K;
  sys_closedir : K -> Z * K
}.

(** *** A FUSE operation: kernel state threaded through, with C's [return] *)

Definition fuse (K A : Type) : Type := K -> (Z + A) * K.

Definition fret {K A} (a : A) : fuse K A := fun k => (inr a, k).

(** [return r;] leaves the operation at once. *)
Definition freturn {K A} (r : Z) : fuse K A := fun k => (inl r, k).

Definition fbind {K A B} (m : fuse K A) (f : A -> fuse K B) : fuse K B :=
  fun k =>
    match m k with
    | (inl r, k') => (inl r, k')
    | (inr a, k') => f a k'
    end.

Definition call {K A} (f : K -> A * K) : fuse K A :=
  fun k => let (a, k') := f k in (inr a, k').

Definition run {K} (m : fuse K Z) (k : K) : Z * K :=
  match m k with
  | (inl r, k') => (r, k')
  | (inr r, k') => (r, k')
  end.

Notation "x <- m ;; f" := (fbind m (fun x => f))
  (at level 62, m at next level, right associativity).
Notation "m ;;; f" := (fbind m (fun _ => f))
  (at level 62, right associativity).

(** *** Global variables *)

Record globals := {
  mount_fd : Z;
  alt_fd : Z;
  alt_files : list string;
  alt_file_lens : list nat
}.

Definition alt_file_count (g : globals) : nat := length (alt_files g).

(** The globals as [main] leaves them: the lengths are those of the files. *)
Definition globals_of_main (mount_fd alt_fd : Z) (files : list string) : globals :=
  {| mount_fd := mount_fd; alt_fd := alt_fd; alt_files := files;
     alt_file_lens := map strlen files |}.

(** [alt_files[i]] with [alt_file_lens[i]], for [i] below [alt_file_count]. *)
Definition alt_entries (g : globals) : list (string * nat) :=
  take (alt_file_count g) (zip (alt_files g) (alt_file_lens g)).

(** *** Macros *)

(** The test of [CHDIR_REF] and [GET_FD_REF] on one entry. *)
Definition ref_match (file : string) (len : nat) (path : string) : bool :=
  bool_decide (strncmp file path len = 0)
  && (bool_decide (char_at path len = NUL) || bool_decide (char_at path len = SLASH)).

(** The [for] loop over the entries; [true] when it leaves by [break]. *)
Fixpoint alt_scan (entries : list (string * nat)) (path : string) : bool :=
  match entries with
  | [] => false
  | (file, len) :: rest =>
      if ref_match file len path then true else alt_scan rest path
  end.

Inductive backend := MountPoint | AltPoint.

#[global] Instance backend_eq_dec : EqDecision backend.
Proof. solve_decision. Defined.

Definition classify (g : globals) (path : string) : backend :=
  if alt_scan (alt_entries g) path then AltPoint else MountPoint.

Definition backend_fd (g : globals) (b : backend) : Z :=
  match b with
  | MountPoint => mount_fd g
  | AltPoint => alt_fd g
  end.

(** The wording of the specification: [E] is a byte prefix of [P] and [P]
    ends there or goes on with the separator. *)
Definition component_prefix (E P : string) : Prop :=
  String.prefix E P = true
  /\ (String.length P = String.length E
      \/ String.get (String.length E) P = Some SLASH).

Definition GET_FD_REF (g : globals) (path : string) : Z :=
  backend_fd g (classify g path).

(** [path = (path[1] == '\0') ? "." : path+1].  FUSE paths start with the
    separator, so [path[1]] is within the string. *)
Definition MAKE_RELATIVE (path : string) : string :=
  match path with
  | EmptyString => EmptyString
  | String _ rest => if decide (char_at path 1 = NUL) then "." else rest
  end.

Definition SET_RET_ERRNO (ret errno_now : Z) : Z :=
  if ret <? 0 then - errno_now else ret.

Section Operations.
Context {K : Type} `{Kernel K}.

Definition get_errno : fuse K Z := fun k => (inr (errno k), k).

Definition SET_CALLER_UID (context : fuse_context) : fuse K unit :=
  call (sys_setegid (gid context)) ;;;
  call (sys_seteuid (uid context)) ;;;
  fret tt.

Definition CHDIR_REF (g : globals) (path : string) : fuse K unit :=
  r <- call (sys_fchdir (mount_fd g)) ;;
  if r <? 0 then (e <- get_errno ;; freturn (- e))
  else if alt_scan (alt_entries g) path then
    (r <- call (sys_fchdir (alt_fd g)) ;;
     if r <? 0 then (e <- get_errno ;; freturn (- e)) else fret tt)
  else fret tt.

(** *** Operations that take a path *)

Definition bru_getattr (g : globals) (context : fuse_context) (path : string)
    (k : K) : (Z * option stat) * K :=
  match (SET_CALLER_UID context ;;;
         CHDIR_REF g (MAKE_RELATIVE path) ;;;
         call (sys_lstat (MAKE_RELATIVE path))) k with
  | (inl r, k') => ((r, None), k')
  | (inr (ret, stbuf), k') => ((SET_RET_ERRNO ret (errno k'), Some stbuf), k')
  end.

(** What [bru_readlink] leaves behind: the return value, the caller's
    buffer, and the index of the store [buf[bytes_read] = '\0'] when that
    statement runs.  A store at an index outside the buffer does not change
    the buffer of the model. *)
Record readlink_result := {
  rl_ret : Z;
  rl_buf : list ascii;
  rl_terminator : option Z
}.

(** [readlink(2)] overwrites the first bytes of the caller's buffer. *)
Definition fill (buf placed : list ascii) : list ascii :=
  take (length buf) placed ++ drop (length placed) buf.

Definition bru_readlink (g : globals) (context : fuse_context) (path : string)
    (buf : list ascii) (bufsize : Z) (k : K) : readlink_result * K :=
  match (SET_CALLER_UID context ;;;
         CHDIR_REF g (MAKE_RELATIVE path) ;;;
         call (sys_readlink (MAKE_RELATIVE path) bufsize)) k with
  | (inl r, k') => ({| rl_ret := r; rl_buf := buf; rl_terminator := None |}, k')
  | (inr (n, placed), k') =>
      let bytes_read := to_int n in
      let buf := fill buf placed in
      if bytes_read <? 0 then
        ({| rl_ret := - errno k'; rl_buf := buf; rl_terminator := None |}, k')
      else if to_uint64 bytes_read <=? bufsize then
        ({| rl_ret := 0;
            rl_buf := <[Z.to_nat bytes_read := NUL]> buf;
            rl_terminator := Some bytes_read |}, k')
      else
        ({| rl_ret := 0; rl_buf := buf; rl_terminator := None |}, k')
  end.


(** *** Operations that create a handle *)

Definition bru_open (g : globals) (context : fuse_context) (path : string)
    (fi : fuse_file_info) (k : K) : (Z * fuse_file_info) * K :=
  match (SET_CALLER_UID context ;;;
         CHDIR_REF g (MAKE_RELATIVE path) ;;;
         call (sys_open (MAKE_RELATIVE path) (flags fi))) k with
  | (inl r, k') => ((r, fi), k')
  | (inr ret, k') =>
      if ret <? 0 then ((- errno k', fi), k')
      else ((0, set_fh fi (to_uint64 ret)), k')
  end.

(** [if ((fi->fh = creat(path, mode)) < 0) ret = -errno;] compares the
    value of the assignment, which has the type of [fi->fh]. *)
Definition bru_create (g : globals) (context : fuse_context) (path : string)
    (mode : Z) (fi : fuse_file_info) (k : K) : (Z * fuse_file_info) * K :=
  match (SET_CALLER_UID context ;;;
         CHDIR_REF g (MAKE_RELATIVE path) ;;;
         call (sys_creat (MAKE_RELATIVE path) mode)) k with
  | (inl r, k') => ((r, fi), k')
  | (inr fd, k') =>
      let fi := set_fh fi (to_uint64 fd) in
      if fh fi <? 0 then ((- errno k', fi), k') else ((0, fi), k')
  end.

(** *** Operations on a handle *)

Definition bru_read (g : globals) (context : fuse_context) (path : string)
    (size offset : Z) (fi : fuse_file_info) (k : K) : (Z * list ascii) * K :=
  match (SET_CALLER_UID context ;;;
         call (sys_pread (to_int (fh fi)) size offset)) k with
  | (inl r, k') => ((r, []), k')
  | (inr (n, data), k') => ((SET_RET_ERRNO (to_int n) (errno k'), data), k')
  end.

Definition bru_write (g : globals) (context : fuse_context) (path : string)
    (buf : list ascii) (size offset : Z) (fi : fuse_file_info) : K -> Z * K :=
  run (SET_CALLER_UID context ;;;
       n <- call (sys_pwrite (to_int (fh fi)) buf size offset) ;;
       e <- get_errno ;;
       fret (SET_RET_ERRNO (to_int n) e)).

Definition bru_release (g : globals) (context : fuse_context) (path : string)
    (fi : fuse_file_info) : K -> Z * K :=
  run (SET_CALLER_UID context ;;;
       ret <- call (sys_close (to_int (fh fi))) ;;
       e <- get_errno ;;
       fret (SET_RET_ERRNO ret e)).

Definition bru_fsync (g : globals) (context : fuse_context) (path : string)
    (datasync : Z) (fi : fuse_file_info) : K -> Z * K :=
  run (SET_CALLER_UID context ;;;
       ret <- (if decide (datasync = 0)
               then call (sys_fsync (to_int (fh fi)))
               else call (sys_fdatasync (to_int (fh fi)))) ;;
       e <- get_errno ;;
       fret (SET_RET_ERRNO ret e)).

Definition bru_ftruncate (g : globals) (context : fuse_context) (path : string)
    (length : Z) (fi : fuse_file_info) : K -> Z * K :=
  run (SET_CALLER_UID context ;;;
       ret <- call (sys_ftruncate (to_int (fh fi)) length) ;;
       e <- get_errno ;;
       fret (SET_RET_ERRNO ret e)).

Definition bru_fgetattr (g : globals) (context : fuse_context) (path : string)
    (fi : fuse_file_info) (k : K) : (Z * option stat) * K :=
  match (SET_CALLER_UID context ;;;
         call (sys_fstat (to_int (fh fi)))) k with
  | (inl r, k') => ((r, None), k')
  | (inr (ret, stbuf), k') => ((SET_RET_ERRNO ret (errno k'), Some stbuf), k')
  end.

(** A system call made on a descriptor under the caller's identity. *)
Definition on_descriptor {A} (context : fuse_context) (syscall : K -> A * K)
    (k : K) : A * K :=
  let (_, k) := SET_CALLER_UID context k in syscall k.

(** The operations on the handle [fi] are the system calls on descriptor
    [fd], whatever the routing table and the path they are given. *)
Definition handle_acts_on (fi : fuse_file_info) (fd : Z) : Prop :=
  forall (g : globals) (context : fuse_context) (path : string) (k : K),
    (forall size offset,
        bru_read g context path size offset fi k =
          let '((n, data), k') := on_descriptor context (sys_pread fd size offset) k in
          ((SET_RET_ERRNO (to_int n) (errno k'), data), k'))
    /\ (forall buf size offset,
        bru_write g context path buf size offset fi k =
          let '(n, k') := on_descriptor context (sys_pwrite fd buf size offset) k in
          (SET_RET_ERRNO (to_int n) (errno k'), k'))
    /\ (forall datasync,
        bru_fsync g context path datasync fi k =
          let '(r, k') :=
            on_descriptor context
              (if decide (datasync = 0) then sys_fsync fd else sys_fdatasync fd) k in
          (SET_RET_ERRNO r (errno k'), k'))
    /\ (forall length,
        bru_ftruncate g context path length fi k =
          let '(r, k') := on_descriptor context (sys_ftruncate fd length) k in
          (SET_RET_ERRNO r (errno k'), k'))
    /\ bru_fgetattr g context path fi k =
         (let '((r, stbuf), k') := on_descriptor context (sys_fstat fd) k in
          ((SET_RET_ERRNO r (errno k'), Some stbuf), k'))
    /\ bru_release g context path fi k =
         (let '(r, k') := on_descriptor context (sys_close fd) k in
          (SET_RET_ERRNO r (errno k'), k')).

(** *** Rename, with the copy and unlink fallback *)

Definition COPY_BUFSIZE : Z := 8192.

Inductive loop_exit :=
| LoopReturn (ret : Z)
| LoopBreak.

(** The [while (1)] copy loop.  [fuel] bounds the number of iterations;
    [None] means the bound was reached. *)
Fixpoint copy_loop (fuel : nat) (old_path_fd new_path_fd : Z) (k : K)
    : option (loop_exit * K) :=
  match fuel with
  | O => None
  | S fuel' =>
      let '((n, buffer), k) := sys_read old_path_fd COPY_BUFSIZE k in
      let transfered := to_int n in
      if transfered <? 0 then
        let (_, k) := sys_close old_path_fd k in
        let (_, k) := sys_close new_path_fd k in
        Some (LoopReturn (SET_RET_ERRNO transfered (errno k)), k)
      else if transfered =? 0 then Some (LoopBreak, k)
      else
        let (n, k) := sys_write new_path_fd buffer transfered k in
        let transfered := to_int n in
        if transfered <? 0 then
          let (_, k) := sys_close old_path_fd k in
          let (_, k) := sys_close new_path_fd k in
          Some (LoopReturn (SET_RET_ERRNO transfered (errno k)), k)
        else copy_loop fuel' old_path_fd new_path_fd k
  end.

Definition bru_rename (fuel : nat) (g : globals) (context : fuse_context)
    (old_path new_path : string) (k : K) : option (Z * K) :=
  let (_, k) := SET_CALLER_UID context k in
  let old_path := MAKE_RELATIVE old_path in
  let new_path := MAKE_RELATIVE new_path in
  let old_ref_fd := GET_FD_REF g old_path in
  let new_ref_fd := GET_FD_REF g new_path in
  let (r, k) := sys_renameat old_ref_fd old_path new_ref_fd new_path k in
  let ret := if r <? 0 then - errno k else 0 in
  if negb (ret =? - EXDEV) then Some (SET_RET_ERRNO ret (errno k), k)
  else
    let (_, k) := sys_unlinkat new_ref_fd new_path 0 k in
    let '((_, old_path_stat), k) :=
      sys_fstatat old_ref_fd old_path AT_SYMLINK_NOFOLLOW k in
    let (old_path_fd, k) := sys_openat old_ref_fd old_path O_RDONLY VaNone k in
    if old_path_fd <? 0 then Some (- errno k, k)
    else
      let (new_path_fd, k) :=
        sys_openat new_ref_fd new_path
          (Z.lor (Z.lor O_CREAT O_WRONLY) O_TRUNC) (VaStat old_path_stat) k in
      if new_path_fd <? 0 then Some (- errno k, k)
      else
        match copy_loop fuel old_path_fd new_path_fd k with
        | None => None
        | Some (LoopReturn r, k) => Some (r, k)
        | Some (LoopBreak, k) =>
            let (_, k) := sys_close old_path_fd k in
            let (_, k) := sys_close new_path_fd k in
            let (ret, k) := sys_unlinkat old_ref_fd old_path 0 k in
            Some (SET_RET_ERRNO ret (errno k), k)
        end.

(** *** Directory listing *)

Definition is_dot_or_dotdot (d_name : string) : bool :=
  bool_decide (strcmp d_name "." = 0) || bool_decide (strcmp d_name ".." = 0).

(** The string built in [full_path].  The buffer the code allocates for it
    is [path_len + strlen(d_name)] bytes; the model keeps the whole string. *)
Definition full_path (path d_name : string) : string :=
  if decide (char_at path 1 = NUL) then d_name
  else strcat (strcat path "/") d_name.

Definition dir_match (full_path file : string) (len : nat) : bool :=
  bool_decide (strncmp full_path file len = 0)
  && (bool_decide (char_at full_path len = NUL)
      || bool_decide (char_at full_path len = SLASH)).

Fixpoint dir_scan (entries : list (string * nat)) (full_path : string) : bool :=
  match entries with
  | [] => false
  | (file, len) :: rest =>
      if dir_match full_path file len then true else dir_scan rest full_path
  end.

(** [filler(buf, name, NULL, 0)] *)
Definition filler (buf : list string) (name : string) : list string :=
  buf ++ [name].

(** The [while ((dir = readdir(d)) != NULL)] loop over the alt point. *)
Fixpoint populate_alt (g : globals) (path : string) (d : list string)
    (buf : list string) : list string :=
  match d with
  | [] => buf
  | d_name :: rest =>
      if is_dot_or_dotdot d_name then populate_alt g path rest buf
      else if dir_scan (alt_entries g) (full_path path d_name)
      then populate_alt g path rest (filler buf d_name)
      else populate_alt g path rest buf
  end.

(** The same loop over the mount point, adding what does not match. *)
Fixpoint populate_mount (g : globals) (path : string) (d : list string)
    (buf : list string) : list string :=
  match d with
  | [] => buf
  | d_name :: rest =>
      if is_dot_or_dotdot d_name then populate_mount g path rest buf
      else
        let match_ := if dir_scan (alt_entries g) (full_path path d_name) then 1 else 0 in
        if match_ =? 0
        then populate_mount g path rest (filler buf d_name)
        else populate_mount g path rest buf
  end.

Definition bru_readdir (g : globals) (context : fuse_context) (path : string)
    (buf : list string) (k : K) : (Z * list string) * K :=
  let (_, k) := SET_CALLER_UID context k in
  let path := MAKE_RELATIVE path in
  let exists_ := 0 in
  let buf := filler buf "." in
  let buf := filler buf ".." in
  let (i, k) := sys_fchdir (alt_fd g) k in
  let (d, k) := sys_opendir path k in
  let '(buf, exists_, k) :=
    match d with
    | Some names =>
        if 0 <=? i then
          let buf := populate_alt g path names buf in
          let (_, k) := sys_closedir k in
          (buf, 1, k)
        else (buf, exists_, k)
    | None => (buf, exists_, k)
    end in
  let (i, k) := sys_fchdir (mount_fd g) k in
  let (d, k) := sys_opendir path k in
  let '(buf, exists_, k) :=
    match d with
    | Some names =>
        if 0 <=? i then
          let buf := populate_mount g path names buf in
          let (_, k) := sys_closedir k in
          (buf, 1, k)
        else (buf, exists_, k)
    | None => (buf, exists_, k)
    end in
  if exists_ =? 0 then ((- ENOENT, buf), k) else ((0, buf), k).

(** The names the two loops of [bru_readdir] pass to the filler. *)
Definition kept_alt (g : globals) (path : string) (names : list string) : list string :=
  filter (fun n => is_dot_or_dotdot n = false
                   /\ dir_scan (alt_entries g) (full_path path n) = true) names.

Definition kept_mount (g : globals) (path : string) (names : list string) : list string :=
  filter (fun n => is_dot_or_dotdot n = false
                   /\ dir_scan (alt_entries g) (full_path path n) = false) names.

(** The two directory streams [bru_readdir] reads, first that of the alt
    point, then that of the mount point; [None] where the change of
    directory or the [opendir] failed. *)
Definition stream_seen (i : Z) (d : option (list string)) : option (list string) :=
  match d with
  | Some names => if 0 <=? i then Some names else None
  | None => None
  end.

Definition readdir_streams (g : globals) (context : fuse_context) (path : string)
    (k : K) : option (list string) * option (list string) :=
  let (_, k) := SET_CALLER_UID context k in
  let path := MAKE_RELATIVE path in
  let (i, k) := sys_fchdir (alt_fd g) k in
  let (d, k) := sys_opendir path k in
  let alt := stream_seen i d in
  let k := match alt with Some _ => (sys_closedir k).2 | None => k end in
  let (i, k) := sys_fchdir (mount_fd g) k in
  let (d, k) := sys_opendir path k in
  (alt, stream_seen i d).

(** The wording of the specification for the union of a directory: the
    fully-qualified path of a child relative to the mount root, and the
    names the union shows. *)
Definition qualified_path (path d_name : string) : string :=
  if decide (path = ".") then d_name else path +:+ "/" +:+ d_name.

Definition union_shows (g : globals) (path : string)
    (alt_children default_children : list string) (name : string) : Prop :=
  name = "." \/ name = ".."
  \/ (name ∈ alt_children /\ classify g (qualified_path path name) = AltPoint)
  \/ (name ∈ default_children /\ classify g (qualified_path path name) <> AltPoint).

(** *** Startup *)



Inductive startup :=
| Exit (status : Z)
| FuseMain (g : globals) (args : list string).

Record main_result := {
  outcome : startup;
  stdout : list string;
  stderr : list string
}.

Definition usage : string :=
"bru - BedRock linux Union filesystem

Usage: bru [mount-point] [alt directory] [paths]

Example: bru /tmp /dev/shm file1 file2 file3

[mount-point]       is the directory where the filesystem will be mounted
                    as well as where filesystem calls which aren't to [paths]
                    will be directed.  This must be a directory.
[redir directory]   is where filesystem calls which are in [paths] will be
                    redirected.  This must be a directory.
[paths]             is the list of file paths relative to [mount-point]
                    which will be redirected to [redir directory].
                    Everything else will be redirected to
                    [mount-point].  [paths] items must not start or end with
                    a slash.
".

Definition dquote : string := String "034"%char EmptyString.
Definition newline : string := String "010"%char EmptyString.

Definition argv_at (argv : list string) (i : nat) : string :=
  default EmptyString (argv !! i).

(** [s[strlen(s)-1]].  [strlen] is unsigned: for an empty [s] the index
    wraps around and the byte read is the one stored before [s], which in
    the argument block of a process is the terminator of the previous
    argument. *)
Definition last_char (s : string) : ascii :=
  match strlen s with
  | O => NUL
  | S n => char_at s n
  end.

Definition bad_alt_file (file : string) : bool :=
  bool_decide (char_at file 0 = SLASH) || bool_decide (last_char file = SLASH).

(** The validation loop; the entry it stops at, if any. *)
Fixpoint check_alt_files (files : list string) : option string :=
  match files with
  | [] => None
  | file :: rest =>
      if bad_alt_file file then Some file else check_alt_files rest
  end.

Definition bad_alt_file_message (file : string) : string :=
  "The alternate location files should not start or end with a '/'.  This one is problematic: "
    +:+ dquote +:+ file +:+ dquote +:+ newline.


Definition exit_with (status : Z) (out err : list string) : main_result :=
  {| outcome := Exit status; stdout := out; stderr := err |}.

Definition bru_main (argv : list string) (k : K) : main_result * K :=
  let argc := Z.of_nat (length argv) in
  if argc <? 2 then (exit_with 1 [usage] [], k)
  else
    let (u, k) := sys_getuid k in
    if negb (u =? 0)
    then (exit_with 1 [] ["ERROR: not running as root, aborting." +:+ newline], k)
    else if argc <? 3
    then (exit_with 1 [] ["ERROR: Insufficient arguments." +:+ newline], k)
    else
      let (mount_fd, k) := sys_open (argv_at argv 1) O_DIRECTORY k in
      if mount_fd =? -1
      then (exit_with 1 []
              ["ERROR: Could not open mount point " +:+ dquote +:+ argv_at argv 1
                 +:+ dquote +:+ ", aborting." +:+ newline], k)
      else
        let (alt_fd, k) := sys_open (argv_at argv 2) O_DIRECTORY k in
        if alt_fd =? -1
        then (exit_with 1 []
                ["ERROR: Could not open alt point " +:+ dquote +:+ argv_at argv 2
                   +:+ dquote +:+ ", aborting." +:+ newline], k)
        else
          let alt_files := drop 3 argv in
          match check_alt_files alt_files with
          | Some file => (exit_with 1 [] [bad_alt_file_message file], k)
          | None =>
              let g := globals_of_main mount_fd alt_fd alt_files in
              ({| outcome := FuseMain g [argv_at argv 0; argv_at argv 1; "-s";
                                         "-oallow_other,nonempty"; "-f"];
                  stdout := []; stderr := [] |}, k)
          end.
End Operations.
End Bru.

(** ** A reference kernel

    Two directory trees, one under the mount point and one under the alt
    point, each a finite map from relative paths to inodes, with a
    descriptor table.  It implements the [Kernel] interface and is the
    kernel of the closed examples below. *)

Module World.
Import CInt Bru.

Definition S_IFMT : Z := 61440.
Definition S_IFDIR : Z := 16384.
Definition S_IFREG : Z := 32768.
Definition S_IFLNK : Z := 40960.
Definition PERM_MASK : Z := 4095.

(** An inode: number, mode (type and permission bits) and either the file
    contents or the link target. *)
Record inode := { i_ino : Z; i_mode : Z; i_data : list ascii }.

Definition is_dir (i : inode) : bool := Z.land (i_mode i) S_IFMT =? S_IFDIR.
Definition is_lnk (i : inode) : bool := Z.land (i_mode i) S_IFMT =? S_IFLNK.
Definition perms (i : inode) : Z := Z.land (i_mode i) PERM_MASK.

Record open_file := {
  of_backend : backend;
  of_path : string;
  of_pos : nat;
  of_writable : bool
}.

Record world := {
  w_errno : Z;
  w_uid : Z;
  w_euid : Z;
  w_egid : Z;
  w_umask : Z;
  w_mount_path : string;
  w_alt_path : string;
  w_mount_fd : Z;
  w_alt_fd : Z;
  w_mount_dev : Z;
  w_alt_dev : Z;
  w_mount : gmap string inode;
  w_alt : gmap string inode;
  w_cwd : option backend;
  w_fds : gmap Z open_file;
  w_next_fd : Z;
  w_next_ino : Z
}.

Definition tree (w : world) (b : backend) : gmap string inode :=
  match b with
  | MountPoint => w_mount w
  | AltPoint => w_alt w
  end.

Definition dev (w : world) (b : backend) : Z :=
  match b with
  | MountPoint => w_mount_dev w
  | AltPoint => w_alt_dev w
  end.

Definition set_errno (e : Z) (w : world) : world :=
  {| w_errno := e; w_uid := w_uid w; w_euid := w_euid w; w_egid := w_egid w;
     w_umask := w_umask w;
     w_mount_path := w_mount_path w; w_alt_path := w_alt_path w;
     w_mount_fd := w_mount_fd w; w_alt_fd := w_alt_fd w;
     w_mount_dev := w_mount_dev w; w_alt_dev := w_alt_dev w;
     w_mount := w_mount w; w_alt := w_alt w; w_cwd := w_cwd w;
     w_fds := w_fds w; w_next_fd := w_next_fd w; w_next_ino := w_next_ino w |}.

Definition set_ids (euid egid : Z) (w : world) : world :=
  {| w_errno := w_errno w; w_uid := w_uid w; w_euid := euid; w_egid := egid;
     w_umask := w_umask w;
     w_mount_path := w_mount_path w; w_alt_path := w_alt_path w;
     w_mount_fd := w_mount_fd w; w_alt_fd := w_alt_fd w;
     w_mount_dev := w_mount_dev w; w_alt_dev := w_alt_dev w;
     w_mount := w_mount w; w_alt := w_alt w; w_cwd := w_cwd w;
     w_fds := w_fds w; w_next_fd := w_next_fd w; w_next_ino := w_next_ino w |}.

Definition set_cwd (c : option backend) (w : world) : world :=
  {| w_errno := w_errno w; w_uid := w_uid w; w_euid := w_euid w; w_egid := w_egid w;
     w_umask := w_umask w;
     w_mount_path := w_mount_path w; w_alt_path := w_alt_path w;
     w_mount_fd := w_mount_fd w; w_alt_fd := w_alt_fd w;
     w_mount_dev := w_mount_dev w; w_alt_dev := w_alt_dev w;
     w_mount := w_mount w; w_alt := w_alt w; w_cwd := c;
     w_fds := w_fds w; w_next_fd := w_next_fd w; w_next_ino := w_next_ino w |}.

Definition set_tree (b : backend) (t : gmap string inode) (w : world) : world :=
  {| w_errno := w_errno w; w_uid := w_uid w; w_euid := w_euid w; w_egid := w_egid w;
     w_umask := w_umask w;
     w_mount_path := w_mount_path w; w_alt_path := w_alt_path w;
     w_mount_fd := w_mount_fd w; w_alt_fd := w_alt_fd w;
     w_mount_dev := w_mount_dev w; w_alt_dev := w_alt_dev w;
     w_mount := match b with MountPoint => t | AltPoint => w_mount w end;
     w_alt := match b with MountPoint => w_alt w | AltPoint => t end;
     w_cwd := w_cwd w;
     w_fds := w_fds w; w_next_fd := w_next_fd w; w_next_ino := w_next_ino w |}.

Definition set_fds (fds : gmap Z open_file) (w : world) : world :=
  {| w_errno := w_errno w; w_uid := w_uid w; w_euid := w_euid w; w_egid := w_egid w;
     w_umask := w_umask w;
     w_mount_path := w_mount_path w; w_alt_path := w_alt_path w;
     w_mount_fd := w_mount_fd w; w_alt_fd := w_alt_fd w;
     w_mount_dev := w_mount_dev w; w_alt_dev := w_alt_dev w;
     w_mount := w_mount w; w_alt := w_alt w; w_cwd := w_cwd w;
     w_fds := fds; w_next_fd := w_next_fd w; w_next_ino := w_next_ino w |}.

Definition bump_fd (w : world) : world :=
  {| w_errno := w_errno w; w_uid := w_uid w; w_euid := w_euid w; w_egid := w_egid w;
     w_umask := w_umask w;
     w_mount_path := w_mount_path w; w_alt_path := w_alt_path w;
     w_mount_fd := w_mount_fd w; w_alt_fd := w_alt_fd w;
     w_mount_dev := w_mount_dev w; w_alt_dev := w_alt_dev w;
     w_mount := w_mount w; w_alt := w_alt w; w_cwd := w_cwd w;
     w_fds := w_fds w; w_next_fd := w_next_fd w + 1; w_next_ino := w_next_ino w |}.

Definition bump_ino (w : world) : world :=
  {| w_errno := w_errno w; w_uid := w_uid w; w_euid := w_euid w; w_egid := w_egid w;
     w_umask := w_umask w;
     w_mount_path := w_mount_path w; w_alt_path := w_alt_path w;
     w_mount_fd := w_mount_fd w; w_alt_fd := w_alt_fd w;
     w_mount_dev := w_mount_dev w; w_alt_dev := w_alt_dev w;
     w_mount := w_mount w; w_alt := w_alt w; w_cwd := w_cwd w;
     w_fds := w_fds w; w_next_fd := w_next_fd w; w_next_ino := w_next_ino w + 1 |}.

(** A failing call: result [-1], error number stored. *)
Definition fail (e : Z) (w : world) : Z * world := (-1, set_errno e w).

(** *** Paths *)

(** [Some d] when [s] has a separator: [d] is [s] up to its last one. *)
Fixpoint dirname_aux (s : string) : option string :=
  match s with
  | EmptyString => None
  | String c r =>
      match dirname_aux r with
      | Some d => Some (String c d)
      | None => if decide (c = SLASH) then Some EmptyString else None
      end
  end.

Definition dirname (s : string) : string :=
  match dirname_aux s with
  | Some d => d
  | None => "."
  end.

Fixpoint strip_prefix (p s : string) : option string :=
  match p, s with
  | EmptyString, _ => Some s
  | String a p', String b s' => if decide (a = b) then strip_prefix p' s' else None
  | String _ _, EmptyString => None
  end.

Fixpoint has_slash (s : string) : bool :=
  match s with
  | EmptyString => false
  | String c r => bool_decide (c = SLASH) || has_slash r
  end.

(** The name of [key] inside directory [dir], when [key] is an immediate
    child of it. *)
Definition child_of (dir key : string) : option string :=
  match (if decide (dir = ".") then Some key else strip_prefix (dir +:+ "/") key) with
  | Some name =>
      if has_slash name || bool_decide (name = EmptyString) then None else Some name
  | None => None
  end.

Definition root_inode : inode :=
  {| i_ino := 1; i_mode := Z.lor S_IFDIR 493; i_data := [] |}.

Definition lookup_path (t : gmap string inode) (path : string) : option inode :=
  if decide (path = ".") then Some root_inode else t !! path.

Definition parent_is_dir (t : gmap string inode) (path : string) : bool :=
  match lookup_path t (dirname path) with
  | Some i => is_dir i
  | None => false
  end.

Definition children (t : gmap string inode) (dir : string) : list string :=
  omap (child_of dir) (map_to_list t).*1.

(** Move [old] and everything below it to [new]. *)
Definition rekey (old new key : string) : option string :=
  if decide (key = old) then Some new
  else match strip_prefix (old +:+ "/") key with
       | Some rest => Some (new +:+ "/" +:+ rest)
       | None => None
       end.

Definition moved_out (t : gmap string inode) (old : string) : gmap string inode :=
  filter (fun kv => rekey old old kv.1 = None) t.

Definition moved_in (t : gmap string inode) (old new : string) : list (string * inode) :=
  omap (fun kv => match rekey old new kv.1 with
                  | Some key => Some (key, kv.2)
                  | None => None
                  end) (map_to_list t).

Definition dir_of_fd (w : world) (fd : Z) : option backend :=
  if decide (fd = w_mount_fd w) then Some MountPoint
  else if decide (fd = w_alt_fd w) then Some AltPoint
  else None.

Definition stat_of (w : world) (b : backend) (i : inode) : stat :=
  {| st_dev := dev w b; st_ino := i_ino i; st_mode := i_mode i;
     st_size := Z.of_nat (length (i_data i)) |}.

(** The contents of a [struct stat] nobody has filled in. *)
Definition blank_stat : stat :=
  {| st_dev := 0; st_ino := 0; st_mode := 0; st_size := 0 |}.

(** *** System calls *)

Section Syscalls.

(** What [va_arg(ap, mode_t)] yields inside [openat] when the caller put a
    [struct stat] in the variable argument list.  C does not define it; it
    is a matter of the calling convention. *)
Variable va_arg_stat : stat -> Z.

Definition va_arg_mode (a : vararg) : Z :=
  match a with
  | VaNone => 0
  | VaMode m => m
  | VaStat s => va_arg_stat s
  end.

Definition w_getuid (w : world) : Z * world := (w_uid w, w).
Definition w_setegid (g : Z) (w : world) : Z * world := (0, set_ids (w_euid w) g w).
Definition w_seteuid (u : Z) (w : world) : Z * world := (0, set_ids u (w_egid w) w).

Definition w_fchdir (fd : Z) (w : world) : Z * world :=
  match dir_of_fd w fd with
  | Some b => (0, set_cwd (Some b) w)
  | None => fail EBADF w
  end.

Definition stat_at (ob : option backend) (path : string) (w : world)
    : (Z * stat) * world :=
  match ob with
  | None => ((-1, blank_stat), set_errno EBADF w)
  | Some b =>
      match lookup_path (tree w b) path with
      | Some i => ((0, stat_of w b i), w)
      | None => ((-1, blank_stat), set_errno ENOENT w)
      end
  end.

Definition w_lstat (path : string) (w : world) := stat_at (w_cwd w) path w.

Definition w_fstatat (fd : Z) (path : string) (flags : Z) (w : world) :=
  stat_at (dir_of_fd w fd) path w.

Definition w_readlink (path : string) (bufsize : Z) (w : world)
    : (Z * list ascii) * world :=
  match w_cwd w with
  | None => ((-1, []), set_errno ENOENT w)
  | Some b =>
      match lookup_path (tree w b) path with
      | Some i =>
          if is_lnk i then
            let placed := take (Z.to_nat bufsize) (i_data i) in
            ((Z.of_nat (length placed), placed), w)
          else ((-1, []), set_errno EINVAL w)
      | None => ((-1, []), set_errno ENOENT w)
      end
  end.

Definition w_unlinkat (fd : Z) (path : string) (flags : Z) (w : world) : Z * world :=
  match dir_of_fd w fd with
  | None => fail EBADF w
  | Some b =>
      match tree w b !! path with
      | None => fail ENOENT w
      | Some i =>
          if is_dir i then fail EISDIR w
          else (0, set_tree b (delete path (tree w b)) w)
      end
  end.

Definition w_renameat (old_fd : Z) (old_path : string) (new_fd : Z)
    (new_path : string) (w : world) : Z * world :=
  match dir_of_fd w old_fd, dir_of_fd w new_fd with
  | Some bo, Some bn =>
      if decide (dev w bo = dev w bn) then
        match tree w bo !! old_path with
        | None => fail ENOENT w
        | Some _ =>
            let moved := moved_in (tree w bo) old_path new_path in
            let w := set_tree bo (moved_out (tree w bo) old_path) w in
            (0, set_tree bn (list_to_map moved ∪ tree w bn) w)
        end
      else fail EXDEV w
  | _, _ => fail EBADF w
  end.

Definition install_fd (f : open_file) (w : world) : Z * world :=
  (w_next_fd w, bump_fd (set_fds (<[w_next_fd w := f]> (w_fds w)) w)).

Definition with_data (i : inode) (data : list ascii) : inode :=
  {| i_ino := i_ino i; i_mode := i_mode i; i_data := data |}.

(** [open], [openat] and [creat] on a path relative to a directory. *)
Definition open_at (ob : option backend) (path : string) (flags : Z)
    (va : vararg) (w : world) : Z * world :=
  match ob with
  | None => fail EBADF w
  | Some b =>
      let writable := negb (Z.land flags 3 =? 0) in
      match lookup_path (tree w b) path with
      | Some i =>
          if is_dir i && writable then fail EISDIR w
          else
            let w := if writable && Z.testbit flags 9
                     then set_tree b (<[path := with_data i []]> (tree w b)) w
                     else w in
            install_fd {| of_backend := b; of_path := path; of_pos := 0;
                          of_writable := writable |} w
      | None =>
          if Z.testbit flags 6 && parent_is_dir (tree w b) path then
            let mode := Z.land (Z.land (va_arg_mode va) PERM_MASK) (Z.lnot (w_umask w)) in
            let i := {| i_ino := w_next_ino w; i_mode := Z.lor S_IFREG mode;
                        i_data := [] |} in
            install_fd {| of_backend := b; of_path := path; of_pos := 0;
                          of_writable := writable |}
              (bump_ino (set_tree b (<[path := i]> (tree w b)) w))
          else fail ENOENT w
      end
  end.

Definition w_openat (fd : Z) (path : string) (flags : Z) (va : vararg) (w : world) :=
  open_at (dir_of_fd w fd) path flags va w.

(** [open] of one of the two directories by its absolute path yields the
    descriptor this world knows it by; other paths are relative to the
    working directory. *)
Definition w_open (path : string) (flags : Z) (w : world) : Z * world :=
  if decide (path = w_mount_path w) then (w_mount_fd w, w)
  else if decide (path = w_alt_path w) then (w_alt_fd w, w)
  else open_at (w_cwd w) path flags VaNone w.

Definition w_creat (path : string) (mode : Z) (w : world) : Z * world :=
  open_at (w_cwd w) path (Z.lor (Z.lor O_CREAT O_WRONLY) O_TRUNC) (VaMode mode) w.

Definition w_close (fd : Z) (w : world) : Z * world :=
  match w_fds w !! fd with
  | Some _ => (0, set_fds (delete fd (w_fds w)) w)
  | None => fail EBADF w
  end.

Definition read_at (data : list ascii) (pos : nat) (count : Z) : list ascii :=
  take (Z.to_nat count) (drop pos data).

Definition write_at (data : list ascii) (pos : nat) (chunk : list ascii) : list ascii :=
  take pos data ++ replicate (pos - length data) NUL ++ chunk
    ++ drop (pos + length chunk) data.

Definition advance (f : open_file) (n : nat) : open_file :=
  {| of_backend := of_backend f; of_path := of_path f;
     of_pos := of_pos f + n; of_writable := of_writable f |}.

(** The inode behind an open descriptor. *)
Definition fd_inode (w : world) (fd : Z) : option (open_file * inode) :=
  match w_fds w !! fd with
  | Some f =>
      match lookup_path (tree w (of_backend f)) (of_path f) with
      | Some i => Some (f, i)
      | None => None
      end
  | None => None
  end.

Definition w_pread (fd : Z) (size offset : Z) (w : world) : (Z * list ascii) * world :=
  match fd_inode w fd with
  | Some (f, i) =>
      if is_dir i then ((-1, []), set_errno EISDIR w)
      else
        let data := read_at (i_data i) (Z.to_nat offset) size in
        ((Z.of_nat (length data), data), w)
  | None => ((-1, []), set_errno EBADF w)
  end.

Definition w_read (fd : Z) (count : Z) (w : world) : (Z * list ascii) * world :=
  match fd_inode w fd with
  | Some (f, i) =>
      if is_dir i then ((-1, []), set_errno EISDIR w)
      else
        let data := read_at (i_data i) (of_pos f) count in
        ((Z.of_nat (length data), data),
         set_fds (<[fd := advance f (length data)]> (w_fds w)) w)
  | None => ((-1, []), set_errno EBADF w)
  end.

Definition w_pwrite (fd : Z) (buf : list ascii) (size offset : Z) (w : world)
    : Z * world :=
  match fd_inode w fd with
  | Some (f, i) =>
      if of_writable f then
        let chunk := take (Z.to_nat size) buf in
        let data := write_at (i_data i) (Z.to_nat offset) chunk in
        (Z.of_nat (length chunk),
         set_tree (of_backend f)
           (<[of_path f := with_data i data]> (tree w (of_backend f))) w)
      else fail EBADF w
  | None => fail EBADF w
  end.

Definition w_write (fd : Z) (buf : list ascii) (count : Z) (w : world) : Z * world :=
  match fd_inode w fd with
  | Some (f, i) =>
      if of_writable f then
        let chunk := take (Z.to_nat count) buf in
        let data := write_at (i_data i) (of_pos f) chunk in
        (Z.of_nat (length chunk),
         set_fds (<[fd := advance f (length chunk)]> (w_fds w))
           (set_tree (of_backend f)
              (<[of_path f := with_data i data]> (tree w (of_backend f))) w))
      else fail EBADF w
  | None => fail EBADF w
  end.

Definition w_fsync (fd : Z) (w : world) : Z * world :=
  match w_fds w !! fd with
  | Some _ => (0, w)
  | None => fail EBADF w
  end.

Definition w_ftruncate (fd : Z) (len : Z) (w : world) : Z * world :=
  match fd_inode w fd with
  | Some (f, i) =>
      if of_writable f then
        let data := (take (Z.to_nat len) (i_data i)
                       ++ replicate (Z.to_nat len - length (i_data i)) NUL)%list in
        (0, set_tree (of_backend f)
              (<[of_path f := with_data i data]> (tree w (of_backend f))) w)
      else fail EINVAL w
  | None => fail EBADF w
  end.

Definition w_fstat (fd : Z) (w : world) : (Z * stat) * world :=
  match fd_inode w fd with
  | Some (f, i) => ((0, stat_of w (of_backend f) i), w)
  | None => ((-1, blank_stat), set_errno EBADF w)
  end.

Definition w_faccessat (fd : Z) (path : string) (mode flags : Z) (w : world)
    : Z * world :=
  match dir_of_fd w fd with
  | None => fail EBADF w
  | Some b =>
      match lookup_path (tree w b) path with
      | Some _ => (0, w)
      | None => fail ENOENT w
      end
  end.

Definition w_opendir (path : string) (w : world) : option (list string) * world :=
  match w_cwd w with
  | None => (None, set_errno ENOENT w)
  | Some b =>
      match lookup_path (tree w b) path with
      | Some i =>
          if is_dir i then (Some ("." :: ".." :: children (tree w b) path), w)
          else (None, set_errno ENOTDIR w)
      | None => (None, set_errno ENOENT w)
      end
  end.

Definition w_closedir (w : world) : Z * world := (0, w).

Definition world_kernel : Kernel world := {|
  errno := w_errno;
  sys_getuid := w_getuid;
  sys_setegid := w_setegid;
  sys_seteuid := w_seteuid;
  sys_fchdir := w_fchdir;
  sys_lstat := w_lstat;
  sys_readlink := w_readlink;
  sys_renameat := w_renameat;
  sys_unlinkat := w_unlinkat;
  sys_fstatat := w_fstatat;
  sys_openat := w_openat;
  sys_read := w_read;
  sys_write := w_write;
  sys_close := w_close;
  sys_open := w_open;
  sys_pread := w_pread;
  sys_pwrite := w_pwrite;
  sys_fsync := w_fsync;
  sys_fdatasync := w_fsync;
  sys_creat := w_creat;
  sys_ftruncate := w_ftruncate;
  sys_fstat := w_fstat;
  sys_faccessat := w_faccessat;
  sys_opendir := w_opendir;
  sys_closedir := w_closedir
|}.
End Syscalls.

(** The routing globals name the two directories of the world. *)
Definition serves (w : world) (g : globals) : Prop :=
  mount_fd g = w_mount_fd w /\ alt_fd g = w_alt_fd w
  /\ w_mount_fd w <> w_alt_fd w.

(** The world a request finds once its identity and working directory are
    set for a path routed to backend [b]. *)
Definition routed (context : fuse_context) (b : backend) (w : world) : world :=
  set_cwd (Some b) (set_ids (uid context) (gid context) w).




(** The file [openat] creates when handed [va] in the mode slot. *)
Definition created (va_mode : Z) (w : world) : inode :=
  {| i_ino := w_next_ino w;
     i_mode := Z.lor S_IFREG (Z.land (Z.land va_mode PERM_MASK) (Z.lnot (w_umask w)));
     i_data := [] |}.

(** A convention that passes variable arguments on the stack: the slot read
    as the mode holds the first word of the [struct stat], the low half of
    [st_dev]. *)
Definition leading_word (s : stat) : Z := st_dev s mod 2 ^ 32.

Definition stack_kernel : Kernel world := world_kernel leading_word.
End World.

(** ** More operations of [src/bru/bru.c]: names and links *)

Module BruPaths.
Import CInt Bru World.

Definition AT_SYMLINK_FOLLOW : Z := 1024.
Definition EPERM : Z := 1.
Definition ENOTEMPTY : Z := 39.

(** The system calls of the operations on names. *)
Class PathKernel (K : Type) := {
  sys_mkdir : string -> Z -> K -> Z * K;
  sys_unlink : string -> K -> Z * K;
  sys_rmdir : string -> K -> Z * K;
  sys_symlink : string -> string -> K -> Z * K;
  sys_linkat : Z -> string -> Z -> string -> Z -> K -> Z * K;
  sys_chmod : string -> Z -> K -> Z * K;
  sys_truncate : string -> Z -> K -> Z * K
}.

Section Operations.
Context {K : Type} `{Kernel K} `{PathKernel K}.

Definition bru_mkdir (g : globals) (context : fuse_context) (path : string)
    (mode : Z) : K -> Z * K :=
  run (SET_CALLER_UID context ;;;
       CHDIR_REF g (MAKE_RELATIVE path) ;;;
       ret <- call (sys_mkdir (MAKE_RELATIVE path) mode) ;;
       e <- get_errno ;;
       fret (SET_RET_ERRNO ret e)).

Definition bru_unlink (g : globals) (context : fuse_context) (path : string)
    : K -> Z * K :=
  run (SET_CALLER_UID context ;;;
       CHDIR_REF g (MAKE_RELATIVE path) ;;;
       ret <- call (sys_unlink (MAKE_RELATIVE path)) ;;
       e <- get_errno ;;
       fret (SET_RET_ERRNO ret e)).

Definition bru_rmdir (g : globals) (context : fuse_context) (path : string)
    : K -> Z * K :=
  run (SET_CALLER_UID context ;;;
       CHDIR_REF g (MAKE_RELATIVE path) ;;;
       ret <- call (sys_rmdir (MAKE_RELATIVE path)) ;;
       e <- get_errno ;;
       fret (SET_RET_ERRNO ret e)).

(** The link is made at [path]; [symlink_string] is passed on as it is. *)
Definition bru_symlink (g : globals) (context : fuse_context)
    (symlink_string path : string) : K -> Z * K :=
  run (SET_CALLER_UID context ;;;
       CHDIR_REF g (MAKE_RELATIVE path) ;;;
       ret <- call (sys_symlink symlink_string (MAKE_RELATIVE path)) ;;
       e <- get_errno ;;
       fret (SET_RET_ERRNO ret e)).

Definition bru_link (g : globals) (context : fuse_context)
    (old_path new_path : string) : K -> Z * K :=
  run (SET_CALLER_UID context ;;;
       ret <- call (sys_linkat (GET_FD_REF g (MAKE_RELATIVE old_path))
                      (MAKE_RELATIVE old_path)
                      (GET_FD_REF g (MAKE_RELATIVE new_path))
                      (MAKE_RELATIVE new_path) AT_SYMLINK_FOLLOW) ;;
       e <- get_errno ;;
       fret (SET_RET_ERRNO ret e)).

Definition bru_chmod (g : globals) (context : fuse_context) (path : string)
    (mode : Z) : K -> Z * K :=
  run (SET_CALLER_UID context ;;;
       CHDIR_REF g (MAKE_RELATIVE path) ;;;
       ret <- call (sys_chmod (MAKE_RELATIVE path) mode) ;;
       e <- get_errno ;;
       fret (SET_RET_ERRNO ret e)).

Definition bru_truncate (g : globals) (context : fuse_context) (path : string)
    (length : Z) : K -> Z * K :=
  run (SET_CALLER_UID context ;;;
       CHDIR_REF g (MAKE_RELATIVE path) ;;;
       ret <- call (sys_truncate (MAKE_RELATIVE path) length) ;;
       e <- get_errno ;;
       fret (SET_RET_ERRNO ret e)).
End Operations.

(** *** The same calls on the reference kernel *)

(** A call on a path relative to the working directory. *)
Definition in_cwd (w : world) (f : backend -> Z * world) : Z * world :=
  match w_cwd w with
  | Some b => f b
  | None => fail ENOENT w
  end.

Definition w_unlink (path : string) (w : world) : Z * world :=
  in_cwd w (fun b =>
    match tree w b !! path with
    | None => fail ENOENT w
    | Some i =>
        if is_dir i then fail EISDIR w
        else (0, set_tree b (delete path (tree w b)) w)
    end).

Definition w_mkdir (path : string) (mode : Z) (w : world) : Z * world :=
  in_cwd w (fun b =>
    match lookup_path (tree w b) path with
    | Some _ => fail EEXIST w
    | None =>
        if parent_is_dir (tree w b) path then
          let i := {| i_ino := w_next_ino w;
                      i_mode := Z.lor S_IFDIR
                                  (Z.land (Z.land mode PERM_MASK) (Z.lnot (w_umask w)));
                      i_data := [] |} in
          (0, bump_ino (set_tree b (<[path := i]> (tree w b)) w))
        else fail ENOENT w
    end).

Definition w_rmdir (path : string) (w : world) : Z * world :=
  in_cwd w (fun b =>
    match tree w b !! path with
    | None => fail ENOENT w
    | Some i =>
        if negb (is_dir i) then fail ENOTDIR w
        else match children (tree w b) path with
             | [] => (0, set_tree b (delete path (tree w b)) w)
             | _ :: _ => fail ENOTEMPTY w
             end
    end).

Definition w_symlink (target path : string) (w : world) : Z * world :=
  in_cwd w (fun b =>
    match lookup_path (tree w b) path with
    | Some _ => fail EEXIST w
    | None =>
        if parent_is_dir (tree w b) path then
          let i := {| i_ino := w_next_ino w; i_mode := Z.lor S_IFLNK 511;
                      i_data := list_ascii_of_string target |} in
          (0, bump_ino (set_tree b (<[path := i]> (tree w b)) w))
        else fail ENOENT w
    end).

(** A second name for an inode.  The two names hold the inode side by
    side: they share its number, and its contents as they are now. *)
Definition w_linkat (old_fd : Z) (old_path : string) (new_fd : Z)
    (new_path : string) (flags : Z) (w : world) : Z * world :=
  match dir_of_fd w old_fd, dir_of_fd w new_fd with
  | Some bo, Some bn =>
      if decide (dev w bo = dev w bn) then
        match tree w bo !! old_path with
        | None => fail ENOENT w
        | Some i =>
            if is_dir i then fail EPERM w
            else match lookup_path (tree w bn) new_path with
                 | Some _ => fail EEXIST w
                 | None =>
                     if parent_is_dir (tree w bn) new_path
                     then (0, set_tree bn (<[new_path := i]> (tree w bn)) w)
                     else fail ENOENT w
                 end
        end
      else fail EXDEV w
  | _, _ => fail EBADF w
  end.

Definition w_chmod (path : string) (mode : Z) (w : world) : Z * world :=
  in_cwd w (fun b =>
    match tree w b !! path with
    | None => fail ENOENT w
    | Some i =>
        let i' := {| i_ino := i_ino i;
                     i_mode := Z.lor (Z.land (i_mode i) S_IFMT) (Z.land mode PERM_MASK);
                     i_data := i_data i |} in
        (0, set_tree b (<[path := i']> (tree w b)) w)
    end).

Definition w_truncate (path : string) (len : Z) (w : world) : Z * world :=
  in_cwd w (fun b =>
    match tree w b !! path with
    | None => fail ENOENT w
    | Some i =>
        if is_dir i then fail EISDIR w
        else
          let data := (take (Z.to_nat len) (i_data i)
                         ++ replicate (Z.to_nat len - length (i_data i)) NUL)%list in
          (0, set_tree b (<[path := with_data i data]> (tree w b)) w)
    end).

Definition world_paths : PathKernel world := {|
  sys_mkdir := w_mkdir;
  sys_unlink := w_unlink;
  sys_rmdir := w_rmdir;
  sys_symlink := w_symlink;
  sys_linkat := w_linkat;
  sys_chmod := w_chmod;
  sys_truncate := w_truncate
|}.
End BruPaths.

(** ** The chroot switch, [src/brc/brc.c] *)

Module Brc.

Definition CONFIGDIR : string := "/bedrock/etc/clients.d/".
Definition CLIENTDIR : string := "/bedrock/clients/".

Definition dquote : string := String "034"%char EmptyString.
Definition newline : string := String "010"%char EmptyString.

(** The fields of [struct stat] the program compares. *)
Record stat := { st_dev : Z; st_ino : Z }.

(** Two [stat] results name the same directory by (device, inode). *)
Definition same_file (a b : stat) : bool :=
  (st_dev a =? st_dev b) && (st_ino a =? st_ino b).

(** What the program does that is visible from outside, in order. *)
Inductive event :=
| EnsureCapSysChroot (executable_name : string)
| EnsureConfigSecure (config_path : string)
| BreakOutOfChroot
| Descend (client_path : string)
| ChrootHere
| RestoreCwd (cwd_path : string)
| Execvp (cmd : list string).

Inductive outcome :=
| Exited (status : Z)
| Replaced (cmd : list string).

Section Process.
Context {dir : Type} `{EqDecision dir}.

(** The machine: its directories, each with a parent entry and a [stat]
    identity, path resolution from a root and a working directory, and what
    the process finds in its environment. *)
Record machine := {
  parent : dir -> dir;
  lstat_dir : dir -> stat;
  lookup : dir -> dir -> string -> option dir;
  uninit_stat : stat;
  chroot_permitted : bool;
  chroot_effective : bool;
  config_secure : string -> bool;
  getcwd : dir -> dir -> option string;
  getenv_SHELL : option string;
  stat_ok : dir -> dir -> string -> bool;
  exec_ok : dir -> dir -> list string -> bool
}.

Record proc := {
  root : dir;
  cwd : dir;
  trace : list event;
  stderr : list string
}.

Definition set_root (d : dir) (p : proc) : proc :=
  {| root := d; cwd := cwd p; trace := trace p; stderr := stderr p |}.

Definition set_cwd (d : dir) (p : proc) : proc :=
  {| root := root p; cwd := d; trace := trace p; stderr := stderr p |}.

Definition log (e : event) (p : proc) : proc :=
  {| root := root p; cwd := cwd p; trace := trace p ++ [e]; stderr := stderr p |}.

Definition warn (s : string) (p : proc) : proc :=
  {| root := root p; cwd := cwd p; trace := trace p; stderr := stderr p ++ [s] |}.

(** [..] seen from directory [d] by a process rooted at [r]. *)
Definition up (m : machine) (r d : dir) : dir :=
  if decide (d = r) then d else parent m d.

(** A directory that is its own parent by (device, inode). *)
Definition root_like (m : machine) (r d : dir) : bool :=
  same_file (lstat_dir m d) (lstat_dir m (up m r d)).

(** The directory [..] names: the parent entry, except at the root of the
    process, where it names the root itself. *)
Definition dotdot (m : machine) (p : proc) : dir := up m (root p) (cwd p).

Definition resolve (m : machine) (p : proc) (path : string) : option dir :=
  if decide (path = ".") then Some (cwd p)
  else if decide (path = "..") then Some (dotdot m p)
  else if decide (path = "/") then Some (root p)
  else lookup m (root p) (cwd p) path.

Definition chdir (m : machine) (path : string) (p : proc) : Z * proc :=
  match resolve m p path with
  | Some d => (0, set_cwd d p)
  | None => (-1, p)
  end.

Definition chroot (m : machine) (path : string) (p : proc) : Z * proc :=
  match resolve m p path with
  | Some d => (0, set_root d p)
  | None => (-1, p)
  end.

(** [lstat(path, &buf)]: the buffer afterwards; a failing call leaves it as
    it was. *)
Definition lstat (m : machine) (p : proc) (path : string) (buf : stat) : stat :=
  match resolve m p path with
  | Some d => lstat_dir m d
  | None => buf
  end.

(** [ensure_capsyschroot]: [None] when the process goes on. *)
Definition ensure_capsyschroot (m : machine) (executable_name : string) (p : proc)
    : option Z * proc :=
  let p := log (EnsureCapSysChroot executable_name) p in
  if negb (chroot_permitted m) || negb (chroot_effective m)
  then (Some 1,
        warn ("This file is missing the cap_sys_chroot capability. To remedy this,"
              +:+ newline +:+ "Run 'setcap cap_sys_chroot=ep " +:+ executable_name
              +:+ "' as root. " +:+ newline) p)
  else (None, p).

(** Modelled from the spec: [ensure_config_secure] of libbedrock, which is
    not among the sources: "an externally provided predicate that verifies
    a config file is owned by a trusted principal and not world-writable";
    a rejected file ends the process with a non-zero status. *)
Definition ensure_config_secure (m : machine) (config_path : string) (p : proc)
    : option Z * proc :=
  let p := log (EnsureConfigSecure config_path) p in
  if config_secure m config_path then (None, p) else (Some 1, p).

(** The [do ... while] loop of [break_out_of_chroot]; [None] when [fuel]
    iterations were not enough. *)
Fixpoint ascend (fuel : nat) (m : machine) (p : proc) : option proc :=
  match fuel with
  | O => None
  | S fuel' =>
      let (_, p) := chdir m ".." p in
      let stat_pwd := lstat m p "." (uninit_stat m) in
      let stat_parent := lstat m p ".." (uninit_stat m) in
      if negb (st_ino stat_pwd =? st_ino stat_parent)
         || negb (st_dev stat_pwd =? st_dev stat_parent)
      then ascend fuel' m p
      else Some p
  end.

Inductive step (A : Type) :=
| Goes (a : A) (p : proc)
| Quits (status : Z) (p : proc)
| OutOfFuel.
Arguments Goes {A}.
Arguments Quits {A}.
Arguments OutOfFuel {A}.

Definition break_out_of_chroot (fuel : nat) (m : machine) (p : proc) : step unit :=
  let p := log BreakOutOfChroot p in
  let (_, p) := chdir m "/" p in
  let (r, p) := chroot m CONFIGDIR p in
  if r =? -1 then Quits 1 (warn "chroot" p)
  else
    match ascend fuel m p with
    | None => OutOfFuel
    | Some p => let (_, p) := chroot m "." p in Goes tt p
    end.

Definition argv_at (argv : list string) (i : nat) : string :=
  default EmptyString (argv !! i).

(** The command to run: the arguments after the client name, or the
    caller's shell when it exists in the client, or [/bin/sh]. *)
Definition command (m : machine) (argv : list string) (p : proc) : list string :=
  if 2 <? Z.of_nat (length argv) then drop 2 argv
  else
    match getenv_SHELL m with
    | Some shell => if stat_ok m (root p) (cwd p) shell then [shell] else ["/bin/sh"]
    | None => ["/bin/sh"]
    end.

(** [main] after its sanity checks, from [break_out_of_chroot] on. *)
Definition enter_client (fuel : nat) (m : machine) (argv : list string)
    (client_path cwd_path : string) (p : proc) : option (outcome * proc) :=
  match break_out_of_chroot fuel m p with
  | OutOfFuel => None
  | Quits status p => Some (Exited status, p)
  | Goes _ p =>
      let stat_real_root := lstat m p "." (uninit_stat m) in
      let stat_client_path := lstat m p client_path (uninit_stat m) in
      let descent :=
        if negb (strcmp (argv_at argv 1) "pid1" =? 0)
           && (negb (st_dev stat_real_root =? st_dev stat_client_path)
               || negb (st_ino stat_real_root =? st_ino stat_client_path))
        then
          let (r, p) := chdir m client_path (log (Descend client_path) p) in
          if negb (r =? 0)
          then (Some 1, warn "Could not find client, aborting." p)
          else (None, p)
        else (None, p) in
      match descent with
      | (Some status, p) => Some (Exited status, p)
      | (None, p) =>
          let (_, p) := chroot m "." (log ChrootHere p) in
          let (r, p) := chdir m cwd_path (log (RestoreCwd cwd_path) p) in
          let p :=
            if negb (r =? 0) then
              let (_, p) := chdir m "/" p in
              warn ("WARNING: " +:+ dquote +:+ cwd_path +:+ dquote
                    +:+ " not present in target client, falling back to root directory"
                    +:+ newline) p
            else p in
          let cmd := command m argv p in
          let p := log (Execvp cmd) p in
          if exec_ok m (root p) (cwd p) cmd then Some (Replaced cmd, p)
          else Some (Exited (-1), warn "execvp" p)
      end
  end.

Definition brc_main (fuel : nat) (m : machine) (argv : list string) (p : proc)
    : option (outcome * proc) :=
  if Z.of_nat (length argv) <? 2
  then Some (Exited 1, warn ("No client specified, aborting" +:+ newline) p)
  else
    let client_path := strcat CLIENTDIR (argv_at argv 1) in
    let config_path := strcat (strcat CONFIGDIR (argv_at argv 1)) ".conf" in
    let (cwd_path, p) :=
      match getcwd m (root p) (cwd p) with
      | Some s => (s, p)
      | None =>
          ("/", warn "WARNING: could not determine current working directory, falling back to /" p)
      end in
    match ensure_capsyschroot m (argv_at argv 0) p with
    | (Some status, p) => Some (Exited status, p)
    | (None, p) =>
        let checked :=
          if negb (strcmp (argv_at argv 1) "pid1" =? 0)
          then ensure_config_secure m config_path p
          else (None, p) in
        match checked with
        | (Some status, p) => Some (Exited status, p)
        | (None, p) => enter_client fuel m argv client_path cwd_path p
        end
    end.
End Process.

Arguments Goes {dir A}.
Arguments Quits {dir A}.
Arguments OutOfFuel {dir A}.
End Brc.

(** ** Closed examples on the reference kernel *)

Module Examples.
Import CInt Bru World.

Definition regular (ino perm : Z) (data : string) : inode :=
  {| i_ino := ino; i_mode := Z.lor S_IFREG perm;
     i_data := list_ascii_of_string data |}.

Definition directory (ino : Z) : inode :=
  {| i_ino := ino; i_mode := Z.lor S_IFDIR 493; i_data := [] |}.

Definition symlink (ino : Z) (target : string) : inode :=
  {| i_ino := ino; i_mode := Z.lor S_IFLNK 511;
     i_data := list_ascii_of_string target |}.

(** A freshly started filesystem over two trees on different devices. *)
Definition boot (mount alt : gmap string inode) : world :=
  {| w_errno := 0; w_uid := 0; w_euid := 0; w_egid := 0; w_umask := 0;
     w_mount_path := "/mount"; w_alt_path := "/mnt/alt";
     w_mount_fd := 3; w_alt_fd := 4;
     w_mount_dev := 2049; w_alt_dev := 2050;
     w_mount := mount; w_alt := alt; w_cwd := None;
     w_fds := ∅; w_next_fd := 5; w_next_ino := 100 |}.

Definition caller : fuse_context := {| uid := 1000; gid := 1000 |}.

(** Table [{a}]; the directory [a] holds [y] under the mount point and [x]
    under the alt point. *)
Definition table_a : globals := globals_of_main 3 4 ["a"].

Definition world_a : world :=
  boot (<["a" := directory 10]> (<["a/y" := regular 11 420 "default"]> ∅))
       (<["a" := directory 20]> (<["a/x" := regular 21 420 "alternate"]> ∅)).

(** Table [{tmp}] of the scenarios of the specification. *)
Definition table_tmp : globals := globals_of_main 3 4 ["tmp"].

Definition world_tmp : world :=
  boot (<["tmp" := directory 10]> (<["tmp/a" := regular 11 420 "a"]>
         (<["var" := directory 12]> ∅)))
       (<["tmp" := directory 20]> (<["tmp/b" := regular 21 420 "b"]>
         (<["tmp/x" := regular 22 420 "payload"]>
         (<["tmp/link" := symlink 23 "abcd"]> ∅)))).

Definition fresh_handle : fuse_file_info := {| flags := O_RDONLY; fh := 0 |}.

(** [world_tmp] once a request for [/tmp/x] has set the identity and the
    working directory, and once [tmp/x] has been opened there. *)
Definition world_tmp_routed : world :=
  ((SET_CALLER_UID (H := stack_kernel) caller ;;;
    CHDIR_REF (H := stack_kernel) table_tmp "tmp/x") world_tmp).2.

Definition world_tmp_opened : world :=
  (sys_open (Kernel := stack_kernel) "tmp/x" O_RDONLY world_tmp_routed).2.

(** The same for a request to create [/tmp], which is a directory. *)
Definition world_tmp_at_tmp : world :=
  ((SET_CALLER_UID (H := stack_kernel) caller ;;;
    CHDIR_REF (H := stack_kernel) table_tmp "tmp") world_tmp).2.

(** The same for a request on the symbolic link [/tmp/link]. *)
Definition world_tmp_at_link : world :=
  ((SET_CALLER_UID (H := stack_kernel) caller ;;;
    CHDIR_REF (H := stack_kernel) table_tmp "tmp/link") world_tmp).2.

(** A caller's buffer of four bytes. *)
Definition four_bytes : list ascii := replicate 4 "x"%char.

(** An invocation whose only alternate path is the empty string. *)
Definition argv_empty_entry : list string := ["bru"; "/mount"; "/mnt/alt"; ""].


(** [world_tmp] with the caller's identity set, as [bru_rename] has it when
    it calls [renameat]. *)
Definition world_tmp_as_caller : world :=
  (SET_CALLER_UID (H := stack_kernel) caller world_tmp).2.

(** Routing globals whose mount descriptor is not one the world has. *)
Definition table_stale : globals := globals_of_main 99 4 ["tmp"].

(** A routing table with no entry: every path is default. *)
Definition table_none : globals := globals_of_main 3 4 [].
End Examples.

Module BrcExamples.
Import Brc.

(** A machine whose directories are numbers: [0] is the real root, its own
    parent; [3], three levels down, is the root of a jail; [50] is the
    configuration directory as the jail shows it; [7] is the directory of
    the client [alpha], reachable from the real root. *)
Definition chain : @machine nat := {|
  parent := fun d => if decide (d = 50%nat) then 3%nat else Nat.pred d;
  lstat_dir := fun d => {| st_dev := 1; st_ino := Z.of_nat d |};
  lookup := fun r c path =>
    if decide (path = CONFIGDIR) then Some 50%nat
    else if decide (path = "/bedrock/clients/alpha")
         then (if decide (r = 0%nat) then Some 7%nat else None)
         else None;
  uninit_stat := {| st_dev := 0; st_ino := 0 |};
  chroot_permitted := true;
  chroot_effective := true;
  config_secure := fun _ => true;
  getcwd := fun _ _ => Some "/home";
  getenv_SHELL := None;
  stat_ok := fun _ _ _ => false;
  exec_ok := fun _ _ _ => true
|}.

Definition jailed : @proc nat :=
  {| root := 3%nat; cwd := 3%nat; trace := []; stderr := [] |}.

Definition argv_alpha : list string := ["brc"; "alpha"; "ls"].

(** The jailed process once out of the jail, and the whole run. *)
Definition escaped : @proc nat :=
  match break_out_of_chroot 5 chain jailed with
  | Goes _ q => q
  | _ => jailed
  end.

Definition entered : outcome * @proc nat :=
  default (Exited 0, jailed)
    (enter_client 5 chain argv_alpha "/bedrock/clients/alpha" "/home" jailed).

Definition ran : outcome * @proc nat :=
  default (Exited 0, jailed) (brc_main 5 chain argv_alpha jailed).
End BrcExamples.

(** * Properties *)

(** ** C integers and strings *)

Import CInt.

Lemma to_int_id z : - 2 ^ 31 <= z < 2 ^ 31 -> to_int z = z.
Proof. intros H. unfold to_int. rewrite Z.mod_small; lia. Qed.

Lemma to_uint64_id z : 0 <= z < 2 ^ 64 -> to_uint64 z = z.
Proof. intros H. unfold to_uint64. apply Z.mod_small; lia. Qed.

Lemma to_uint64_nonneg z : 0 <= to_uint64 z.
Proof. unfold to_uint64. apply Z.mod_pos_bound. lia. Qed.

Lemma to_uint64_lt z : to_uint64 z < 2 ^ 64.
Proof. unfold to_uint64. apply Z.mod_pos_bound. lia. Qed.

(** A descriptor stored in a 64-bit handle and read back as an [int]. *)
Lemma to_int_to_uint64 z : 0 <= z < 2 ^ 31 -> to_int (to_uint64 z) = z.
Proof. intros H. rewrite to_uint64_id by lia. apply to_int_id. lia. Qed.

Lemma byte_val_inj c1 c2 : byte_val c1 = byte_val c2 -> c1 = c2.
Proof.
  unfold byte_val. intros H. apply N2Z.inj in H.
  rewrite <- (ascii_N_embedding c1), <- (ascii_N_embedding c2). congruence.
Qed.

Lemma byte_val_zero c : byte_val c = 0 -> c = NUL.
Proof. intros H. apply byte_val_inj. rewrite H. reflexivity. Qed.

Lemma byte_val_nonzero c : c <> NUL -> byte_val c <> 0.
Proof. intros Hc H. apply Hc, byte_val_zero, H. Qed.

(** [strcmp] returns zero exactly on equal strings. *)
Lemma strcmp_eq s1 s2 : cstring s1 -> cstring s2 -> strcmp s1 s2 = 0 <-> s1 = s2.
Proof.
  revert s2. induction s1 as [|c1 r1 IH]; intros [|c2 r2]; simpl.
  - tauto.
  - intros _ [Hc _]. split; [intros H | discriminate].
    exfalso. apply (byte_val_nonzero c2 Hc). lia.
  - intros [Hc _] _. split; [intros H | discriminate].
    exfalso. apply (byte_val_nonzero c1 Hc). lia.
  - intros [Hc1 Hr1] [Hc2 Hr2].
    destruct (decide (c1 = c2)) as [->|Hne].
    + destruct (decide (c2 = NUL)) as [?|_]; [contradiction|].
      rewrite (IH r2 Hr1 Hr2). split; [intros ->; reflexivity | congruence].
    + split; [intros H | congruence].
      exfalso. apply Hne, byte_val_inj. lia.
Qed.

(** [strncmp e p (strlen e)] returns zero exactly when [e] is a prefix of
    [p]. *)
Lemma strncmp_prefix e p :
  cstring e -> cstring p ->
  strncmp e p (strlen e) = 0 <-> String.prefix e p = true.
Proof.
  revert p. induction e as [|c1 r1 IH]; intros p He Hp; simpl.
  - destruct p; simpl; tauto.
  - destruct He as [Hc1 Hr1]. destruct p as [|c2 r2]; simpl.
    + split; [intros H | discriminate].
      exfalso. apply (byte_val_nonzero c1 Hc1). lia.
    + destruct Hp as [Hc2 Hr2].
      destruct (decide (c1 = c2)) as [->|Hne].
      * destruct (decide (c2 = NUL)) as [?|_]; [contradiction|].
        destruct (ascii_dec c2 c2) as [_|?]; [|contradiction].
        apply IH; assumption.
      * destruct (ascii_dec c1 c2) as [?|_]; [contradiction|].
        split; [intros H | discriminate].
        exfalso. apply Hne, byte_val_inj. lia.
Qed.

Lemma strncmp_sym_zero s1 s2 n : strncmp s1 s2 n = 0 <-> strncmp s2 s1 n = 0.
Proof.
  revert s1 s2. induction n as [|n IH]; intros [|c1 r1] [|c2 r2]; simpl; try tauto.
  - lia.
  - lia.
  - destruct (decide (c1 = c2)) as [->|Hne].
    + destruct (decide (c2 = c2)) as [_|?]; [|contradiction].
      destruct (decide (c2 = NUL)); [tauto | apply IH].
    + destruct (decide (c2 = c1)) as [?|_]; [congruence | lia].
Qed.

Lemma cstring_app s1 s2 : cstring (s1 +:+ s2) <-> cstring s1 /\ cstring s2.
Proof. induction s1 as [|c r IH]; simpl; tauto. Qed.

Lemma get_None_length s n : String.get n s = None <-> (String.length s <= n)%nat.
Proof.
  revert n. induction s as [|c r IH]; intros [|n]; simpl; try (split; [lia|done]).
  - split; [discriminate | lia].
  - rewrite IH. lia.
Qed.

Lemma cstring_get s n c : cstring s -> String.get n s = Some c -> c <> NUL.
Proof.
  revert n. induction s as [|a r IH]; intros [|n]; simpl; try discriminate.
  - intros [Ha _] [= <-]. exact Ha.
  - intros [_ Hr]. apply IH, Hr.
Qed.

Lemma prefix_length e p :
  String.prefix e p = true -> (String.length e <= String.length p)%nat.
Proof.
  revert p. induction e as [|a e IH]; intros [|b p]; simpl; try lia; try discriminate.
  destruct (ascii_dec a b); [|discriminate]. intros Hp. apply IH in Hp. lia.
Qed.


(** The terminator of a C string is the only NUL the program can read. *)
Lemma char_at_NUL s n :
  cstring s -> char_at s n = NUL <-> (String.length s <= n)%nat.
Proof.
  intros Hs. unfold char_at. rewrite <- get_None_length.
  destruct (String.get n s) as [c|] eqn:Hg; [|tauto].
  split; [|discriminate]. intros ->. exfalso. exact (cstring_get _ _ _ Hs Hg eq_refl).
Qed.

Lemma char_at_SLASH s n : char_at s n = SLASH <-> String.get n s = Some SLASH.
Proof.
  unfold char_at. destruct (String.get n s) as [c|]; split; try congruence.
  discriminate.
Qed.

(** ** Routing *)

Module BruFacts.
Import CInt Bru.

Lemma ref_match_spec E P :
  cstring E -> cstring P ->
  ref_match E (strlen E) P = true <-> component_prefix E P.
Proof.
  intros HE HP. unfold ref_match, component_prefix.
  rewrite andb_true_iff, orb_true_iff, !bool_decide_eq_true.
  rewrite (strncmp_prefix E P HE HP), (char_at_NUL P _ HP), char_at_SLASH.
  unfold strlen. split.
  - intros [Hp [Hl|Hs]]; (split; [exact Hp|]); [left | right; exact Hs].
    apply prefix_length in Hp. lia.
  - intros [Hp [Hl|Hs]]; (split; [exact Hp|]); [left; lia | right; exact Hs].
Qed.

Lemma dir_match_ref_match full file len :
  dir_match full file len = ref_match file len full.
Proof.
  unfold dir_match, ref_match. f_equal.
  apply bool_decide_ext, strncmp_sym_zero.
Qed.

Lemma dir_scan_alt_scan entries full : dir_scan entries full = alt_scan entries full.
Proof.
  induction entries as [|[file len] rest IH]; simpl; [reflexivity|].
  rewrite dir_match_ref_match, IH. reflexivity.
Qed.

Lemma alt_entries_of_main mfd afd T :
  alt_entries (globals_of_main mfd afd T) = map (fun f => (f, strlen f)) T.
Proof.
  unfold alt_entries, alt_file_count, globals_of_main. simpl.
  rewrite take_ge.
  - induction T as [|f T IH]; simpl; [reflexivity|]. f_equal. exact IH.
  - rewrite length_zip_with, length_map. lia.
Qed.

Lemma alt_scan_spec T P :
  alt_scan (map (fun f => (f, strlen f)) T) P = true
  <-> exists E, E ∈ T /\ ref_match E (strlen E) P = true.
Proof.
  induction T as [|f T IH]; simpl.
  - split; [discriminate|]. intros (E & HE & _). inversion HE.
  - destruct (ref_match f (strlen f) P) eqn:Hm.
    + split; [|reflexivity]. intros _. exists f. split; [left | exact Hm].
    + rewrite IH. split.
      * intros (E & HE & HmE). exists E. split; [right; exact HE | exact HmE].
      * intros (E & HE & HmE). apply elem_of_cons in HE as [->|HE]; [congruence|].
        exists E. split; assumption.
Qed.

Lemma classify_alt mfd afd T P :
  cstring P -> Forall cstring T ->
  classify (globals_of_main mfd afd T) P = AltPoint
  <-> exists E, E ∈ T /\ component_prefix E P.
Proof.
  intros HP HT. unfold classify. rewrite alt_entries_of_main.
  rewrite Forall_forall in HT.
  destruct (alt_scan _ P) eqn:Hs.
  - split; [intros _ | reflexivity].
    apply alt_scan_spec in Hs as (E & HE & Hm). exists E. split; [exact HE|].
    apply ref_match_spec; auto.
  - split; [discriminate|]. intros (E & HE & Hc). exfalso.
    assert (alt_scan (map (fun f => (f, strlen f)) T) P = true) as Hs'; [|congruence].
    apply alt_scan_spec. exists E. split; [exact HE|]. apply ref_match_spec; auto.
Qed.

(** C1: a path, relative to the mount root, is classified alternate exactly
    when some routing table entry is a byte prefix of it and the path ends
    there or continues with the separator, and default otherwise; [/a/b] is
    alternate under the tables [{a}] and [{a/b}] and default under [{a/bc}]
    and [{ab}].  [GET_FD_REF] yields the descriptor of that backend. *)
Theorem C1_classification (mfd afd : Z) (T : list string) (P : string) :
  cstring P -> Forall cstring T ->
  (classify (globals_of_main mfd afd T) P = AltPoint
     <-> exists E, E ∈ T /\ component_prefix E P)
  /\ (classify (globals_of_main mfd afd T) P = MountPoint
     <-> ~ exists E, E ∈ T /\ component_prefix E P)
  /\ GET_FD_REF (globals_of_main mfd afd T) P
     = backend_fd (globals_of_main mfd afd T) (classify (globals_of_main mfd afd T) P)
  /\ classify (globals_of_main mfd afd ["a"]) (MAKE_RELATIVE "/a/b") = AltPoint
  /\ classify (globals_of_main mfd afd ["a/b"]) (MAKE_RELATIVE "/a/b") = AltPoint
  /\ classify (globals_of_main mfd afd ["a/bc"]) (MAKE_RELATIVE "/a/b") = MountPoint
  /\ classify (globals_of_main mfd afd ["ab"]) (MAKE_RELATIVE "/a/b") = MountPoint.
Proof.
  intros HP HT. pose proof (classify_alt mfd afd T P HP HT) as Halt.
  split; [exact Halt|]. split.
  - rewrite <- Halt. destruct (classify _ P); split; congruence.
  - split; [reflexivity|]. repeat split; reflexivity.
Qed.

Lemma C1_classification_witness :
  classify (globals_of_main 3 4 ["tmp"; "etc/hosts"]) "etc/hosts" = AltPoint
  <-> exists E, E ∈ ["tmp"; "etc/hosts"] /\ component_prefix E "etc/hosts".
Proof.
  apply (C1_classification 3 4 ["tmp"; "etc/hosts"] "etc/hosts").
  - simpl. repeat split; discriminate.
  - repeat constructor; discriminate.
Defined.

End BruFacts.

(** ** Directory listing *)

Module ReaddirFacts.
Import CInt Bru BruFacts.

Section Generic.
Context {K : Type} `{Kernel K}.

Lemma populate_alt_filter g path names buf :
  populate_alt g path names buf = buf ++ kept_alt g path names.
Proof.
  unfold kept_alt. revert buf.
  induction names as [|n names IH]; intros buf; simpl.
  - rewrite app_nil_r. reflexivity.
  - rewrite filter_cons. destruct (is_dot_or_dotdot n) eqn:Hd.
    + destruct (decide _) as [Hk|Hk]; [destruct Hk; discriminate | apply IH].
    + destruct (dir_scan (alt_entries g) (full_path path n)) eqn:Hs.
      * destruct (decide _) as [Hk|Hk]; [|tauto]. rewrite IH. unfold filler.
        rewrite <- app_assoc. reflexivity.
      * destruct (decide _) as [Hk|Hk]; [destruct Hk; discriminate | apply IH].
Qed.

Lemma populate_mount_filter g path names buf :
  populate_mount g path names buf = buf ++ kept_mount g path names.
Proof.
  unfold kept_mount. revert buf.
  induction names as [|n names IH]; intros buf; simpl.
  - rewrite app_nil_r. reflexivity.
  - rewrite filter_cons. destruct (is_dot_or_dotdot n) eqn:Hd.
    + destruct (decide _) as [Hk|Hk]; [destruct Hk; discriminate | apply IH].
    + destruct (dir_scan (alt_entries g) (full_path path n)) eqn:Hs; simpl.
      * apply IH.
      * rewrite IH. unfold filler. rewrite <- app_assoc. reflexivity.
Qed.

(** What [bru_readdir] returns and emits, in terms of the two streams. *)
Lemma bru_readdir_result g context path buf k :
  (bru_readdir g context path buf k).1 =
    match readdir_streams g context path k with
    | (alt, mnt) =>
        (match alt, mnt with None, None => - ENOENT | _, _ => 0 end,
         buf ++ ["."; ".."]
           ++ kept_alt g (MAKE_RELATIVE path) (default [] alt)
           ++ kept_mount g (MAKE_RELATIVE path) (default [] mnt))
    end.
Proof.
  unfold bru_readdir, readdir_streams, filler.
  destruct (SET_CALLER_UID context k) as [u k1].
  destruct (sys_fchdir (alt_fd g) k1) as [i1 k2].
  destruct (sys_opendir (MAKE_RELATIVE path) k2) as [[names1|] k3]; simpl.
  - destruct (0 <=? i1); simpl.
    + destruct (sys_closedir k3) as [c k4]; simpl.
      destruct (sys_fchdir (mount_fd g) k4) as [i2 k5].
      destruct (sys_opendir (MAKE_RELATIVE path) k5) as [[names2|] k6]; simpl.
      * destruct (0 <=? i2); simpl.
        -- destruct (sys_closedir k6) as [c' k7]; simpl.
           rewrite populate_mount_filter, populate_alt_filter.
           rewrite <- !app_assoc. reflexivity.
        -- rewrite populate_alt_filter, <- !app_assoc, app_nil_r. reflexivity.
      * rewrite populate_alt_filter, <- !app_assoc, app_nil_r. reflexivity.
    + destruct (sys_fchdir (mount_fd g) k3) as [i2 k5].
      destruct (sys_opendir (MAKE_RELATIVE path) k5) as [[names2|] k6]; simpl.
      * destruct (0 <=? i2); simpl.
        -- destruct (sys_closedir k6) as [c' k7]; simpl.
           rewrite populate_mount_filter, <- !app_assoc. reflexivity.
        -- rewrite <- !app_assoc. reflexivity.
      * rewrite <- !app_assoc. reflexivity.
  - destruct (sys_fchdir (mount_fd g) k3) as [i2 k5].
    destruct (sys_opendir (MAKE_RELATIVE path) k5) as [[names2|] k6]; simpl.
    + destruct (0 <=? i2); simpl.
      * destruct (sys_closedir k6) as [c' k7]; simpl.
        rewrite populate_mount_filter, <- !app_assoc. reflexivity.
      * rewrite <- !app_assoc. reflexivity.
    + rewrite <- !app_assoc. reflexivity.
Qed.


Lemma is_dot_or_dotdot_spec n :
  cstring n -> is_dot_or_dotdot n = true <-> n = "." \/ n = "..".
Proof.
  intros Hn. unfold is_dot_or_dotdot.
  rewrite orb_true_iff, !bool_decide_eq_true.
  rewrite !strcmp_eq by (try exact Hn; simpl; repeat split; discriminate).
  reflexivity.
Qed.




(** In a directory whose relative path is a single byte, the string
    [bru_readdir] compares with the routing table is the bare child name. *)
Lemma full_path_one_byte rel n :
  cstring rel -> (String.length rel <= 1)%nat -> full_path rel n = n.
Proof.
  intros Hrel Hlen. unfold full_path.
  destruct (decide (char_at rel 1 = NUL)) as [_|Hz]; [reflexivity|].
  exfalso. apply Hz. apply (char_at_NUL rel 1 Hrel). exact Hlen.
Qed.

(** What [bru_readdir] lists in a directory whose relative path is one byte
    long (the mount root, but also every directory with a one-byte name at
    the top of the mount): children are routed by their bare names. *)
Lemma readdir_one_byte_directory mfd afd T context path buf k alt mnt :
  let g := globals_of_main mfd afd T in
  let rel := MAKE_RELATIVE path in
  readdir_streams g context path k = (alt, mnt) ->
  cstring rel -> (String.length rel <= 1)%nat ->
  Forall cstring (default [] alt) -> Forall cstring (default [] mnt) ->
  exists emitted,
    (bru_readdir g context path buf k).1.2 = buf ++ emitted
    /\ forall name, name ∈ emitted
         <-> name = "." \/ name = ".."
             \/ (name ∈ default [] alt /\ classify g name = AltPoint)
             \/ (name ∈ default [] mnt /\ classify g name <> AltPoint).
Proof.
  intros g rel Hst Hrel Hlen Hca Hcm.
  exists (["."; ".."] ++ kept_alt g rel (default [] alt)
            ++ kept_mount g rel (default [] mnt)).
  split.
  - rewrite bru_readdir_result, Hst. reflexivity.
  - intros name.
    rewrite !elem_of_app, elem_of_cons, list_elem_of_singleton.
    unfold kept_alt, kept_mount. rewrite !list_elem_of_filter.
    rewrite Forall_forall in Hca, Hcm.
    rewrite (full_path_one_byte rel name Hrel Hlen).
    unfold classify. rewrite dir_scan_alt_scan.
    destruct (alt_scan (alt_entries g) name) eqn:Hs.
    + split.
      * intros [[?|?]|[[[_ _] Hin]|[[_ ?] _]]]; try tauto; try discriminate.
      * intros [?|[?|[[Hin _]|[_ ?]]]]; try tauto; try congruence.
        destruct (is_dot_or_dotdot name) eqn:Hd; [|tauto].
        apply is_dot_or_dotdot_spec in Hd; [tauto | auto].
    + split.
      * intros [[?|?]|[[[_ ?] _]|[[_ _] Hin]]]; try tauto; try discriminate.
        right. right. right. split; [exact Hin | discriminate].
      * intros [?|[?|[[_ ?]|[Hin _]]]]; try tauto; try discriminate.
        destruct (is_dot_or_dotdot name) eqn:Hd; [|tauto].
        apply is_dot_or_dotdot_spec in Hd; [tauto | auto].
Qed.

Lemma streams_none g context path k :
  (forall k', (sys_opendir (MAKE_RELATIVE path) k').1 = None) ->
  readdir_streams g context path k = (None, None).
Proof.
  intros Hfail. unfold readdir_streams.
  destruct (SET_CALLER_UID context k) as [u k1].
  destruct (sys_fchdir (alt_fd g) k1) as [i1 k2].
  pose proof (Hfail k2) as H2.
  destruct (sys_opendir (MAKE_RELATIVE path) k2) as [d1 k3]. simpl in H2. subst d1.
  simpl. destruct (sys_fchdir (mount_fd g) k3) as [i2 k4].
  pose proof (Hfail k4) as H4.
  destruct (sys_opendir (MAKE_RELATIVE path) k4) as [d2 k5]. simpl in H4. subst d2.
  reflexivity.
Qed.

(** C10: [bru_readdir] hands the current-directory and parent-directory
    entries to the filler whatever the two backends answer, and first; when
    neither backend yields a directory stream the two entries are all it
    has emitted and it returns the not-found error. *)
Theorem C10_readdir_dots_first g context path buf k :
  (exists rest, (bru_readdir g context path buf k).1.2 = buf ++ "." :: ".." :: rest)
  /\ (readdir_streams g context path k = (None, None) ->
      (bru_readdir g context path buf k).1 = (- ENOENT, buf ++ ["."; ".."])).
Proof.
  split.
  - rewrite bru_readdir_result.
    destruct (readdir_streams g context path k) as [alt mnt]. simpl. eauto.
  - intros Hfail. rewrite bru_readdir_result, Hfail. reflexivity.
Qed.

End Generic.

Import World Examples.

Lemma C10_readdir_dots_first_witness :
  readdir_streams (H := stack_kernel) table_tmp caller "/nodir" world_tmp = (None, None)
  /\ (bru_readdir (H := stack_kernel) table_tmp caller "/nodir" [] world_tmp).1
     = (- ENOENT, ["."; ".."]).
Proof.
  split; [vm_compute; reflexivity|].
  apply (C10_readdir_dots_first (H := stack_kernel) table_tmp caller "/nodir" [] world_tmp).
  vm_compute. reflexivity.
Defined.


Lemma readdir_one_byte_witness :
  exists emitted,
    (bru_readdir (H := stack_kernel) (globals_of_main 3 4 ["a"]) caller "/a" []
       world_a).1.2 = [] ++ emitted
    /\ forall name, name ∈ emitted
         <-> name = "." \/ name = ".."
             \/ (name ∈ default [] (Some ["."; ".."; "x"])
                 /\ classify (globals_of_main 3 4 ["a"]) name = AltPoint)
             \/ (name ∈ default [] (Some ["."; ".."; "y"])
                 /\ classify (globals_of_main 3 4 ["a"]) name <> AltPoint).
Proof.
  apply (readdir_one_byte_directory (H := stack_kernel) 3 4 ["a"] caller "/a" []
           world_a (Some ["."; ".."; "x"]) (Some ["."; ".."; "y"])).
  - vm_compute. reflexivity.
  - simpl. repeat split; discriminate.
  - simpl. lia.
  - simpl. repeat constructor; discriminate.
  - simpl. repeat constructor; discriminate.
Defined.

(** C2, on the code: in a directory whose path relative to the mount root is
    one byte long, [bru_readdir] compares the bare child names with the
    routing table.  With table [{a}], [a/x] under the alt point and [a/y]
    under the mount point, listing [/a] emits [y], which the union hides,
    and not [x], which the union shows. *)
Theorem C2_readdir_one_byte_directory :
  let r := (bru_readdir (H := stack_kernel) table_a caller "/a" [] world_a).1 in
  let alt_children := ["."; ".."; "x"] in
  let default_children := ["."; ".."; "y"] in
  readdir_streams (H := stack_kernel) table_a caller "/a" world_a
    = (Some alt_children, Some default_children)
  /\ r = (0, ["."; ".."; "y"])
  /\ union_shows table_a (MAKE_RELATIVE "/a") alt_children default_children "x"
  /\ ("x" ∉ r.2)
  /\ ("y" ∈ r.2)
  /\ ~ union_shows table_a (MAKE_RELATIVE "/a") alt_children default_children "y".
Proof.
  assert ((bru_readdir (H := stack_kernel) table_a caller "/a" [] world_a).1
          = (0, ["."; ".."; "y"])) as Hr by (vm_compute; reflexivity).
  cbv zeta. rewrite Hr. split; [vm_compute; reflexivity|]. split; [reflexivity|].
  split; [|split; [|split]].
  - right. right. left. split; [|vm_compute; reflexivity].
    apply elem_of_cons. right. apply elem_of_cons. right. apply elem_of_cons. left.
    reflexivity.
  - simpl. rewrite !elem_of_cons, elem_of_nil. intros [H|[H|[H|[]]]]; discriminate.
  - simpl. rewrite !elem_of_cons. tauto.
  - intros [H|[H|[[Hin _]|[_ Hc]]]].
    + discriminate H.
    + discriminate H.
    + rewrite !elem_of_cons, elem_of_nil in Hin.
      destruct Hin as [H|[H|[H|[]]]]; discriminate H.
    + apply Hc. vm_compute. reflexivity.
Qed.

End ReaddirFacts.

(** ** Handles and error translation *)

Module HandleFacts.
Import CInt Bru BruFacts.

Section Generic.
Context {K : Type} `{Kernel K}.

Lemma SET_CALLER_UID_goes context k :
  exists k', SET_CALLER_UID context k = (inr tt, k').
Proof.
  unfold SET_CALLER_UID, fbind, call, fret.
  destruct (sys_setegid (gid context) k) as [r1 k1].
  destruct (sys_seteuid (uid context) k1) as [r2 k2]. eauto.
Qed.

(** The operations on a handle use the descriptor in [fi->fh]. *)
Lemma handle_ops_use_fh fi fd : to_int (fh fi) = fd -> handle_acts_on fi fd.
Proof.
  intros <- g context path k.
  unfold bru_read, bru_write, bru_fsync, bru_ftruncate, bru_fgetattr, bru_release,
    on_descriptor, run, fbind, call, fret, get_errno.
  destruct (SET_CALLER_UID_goes context k) as [k1 ->].
  repeat split.
  - intros size offset. destruct (sys_pread _ size offset k1) as [[n data] k2]. reflexivity.
  - intros buf size offset. destruct (sys_pwrite _ buf size offset k1) as [n k2]. reflexivity.
  - intros datasync. destruct (decide (datasync = 0)).
    + destruct (sys_fsync _ k1) as [r k2]. reflexivity.
    + destruct (sys_fdatasync _ k1) as [r k2]. reflexivity.
  - intros len. destruct (sys_ftruncate _ len k1) as [r k2]. reflexivity.
  - destruct (sys_fstat _ k1) as [[r st] k2]. reflexivity.
  - destruct (sys_close _ k1) as [r k2]. reflexivity.
Qed.

(** [bru_open] once the working directory is set: failure of [open] is
    reported, success stores the descriptor. *)
Lemma bru_open_result g context path fi k k1 fd k2 :
  (SET_CALLER_UID context ;;; CHDIR_REF g (MAKE_RELATIVE path)) k = (inr tt, k1) ->
  sys_open (MAKE_RELATIVE path) (flags fi) k1 = (fd, k2) ->
  bru_open g context path fi k =
    if fd <? 0 then ((- errno k2, fi), k2) else ((0, set_fh fi (to_uint64 fd)), k2).
Proof.
  intros Hpre Hopen. unfold bru_open.
  unfold fbind in *. unfold call.
  destruct (SET_CALLER_UID context k) as [[r|u] k0]; [discriminate|].
  destruct (CHDIR_REF g (MAKE_RELATIVE path) k0) as [[r|u'] k0']; [discriminate|].
  injection Hpre as _ ->. rewrite Hopen. reflexivity.
Qed.

(** [bru_create] once the working directory is set: whatever [creat]
    returns, the operation returns zero. *)
Lemma bru_create_result g context path mode fi k k1 fd k2 :
  (SET_CALLER_UID context ;;; CHDIR_REF g (MAKE_RELATIVE path)) k = (inr tt, k1) ->
  sys_creat (MAKE_RELATIVE path) mode k1 = (fd, k2) ->
  bru_create g context path mode fi k = ((0, set_fh fi (to_uint64 fd)), k2).
Proof.
  intros Hpre Hcreat. unfold bru_create.
  unfold fbind in *. unfold call.
  destruct (SET_CALLER_UID context k) as [[r|u] k0]; [discriminate|].
  destruct (CHDIR_REF g (MAKE_RELATIVE path) k0) as [[r|u'] k0']; [discriminate|].
  injection Hpre as _ ->. rewrite Hcreat. simpl.
  destruct (to_uint64 fd <? 0) eqn:Hneg; [|reflexivity].
  apply Z.ltb_lt in Hneg. pose proof (to_uint64_nonneg fd). lia.
Qed.

(** C6: when [open] or [creat] has returned descriptor [fd], the handle
    holds [fd], and read, write, fsync, truncate-by-handle, stat-by-handle
    and release on that handle are the system calls on [fd] for every
    routing table and every path they are called with: nothing is
    classified again. *)
Theorem C6_handle_sticky g context path fi k k1 fd k2 :
  (SET_CALLER_UID context ;;; CHDIR_REF g (MAKE_RELATIVE path)) k = (inr tt, k1) ->
  0 <= fd < 2 ^ 31 ->
  (sys_open (MAKE_RELATIVE path) (flags fi) k1 = (fd, k2) ->
     exists fi', bru_open g context path fi k = ((0, fi'), k2)
                 /\ fh fi' = fd /\ handle_acts_on fi' fd)
  /\ (forall mode, sys_creat (MAKE_RELATIVE path) mode k1 = (fd, k2) ->
     exists fi', bru_create g context path mode fi k = ((0, fi'), k2)
                 /\ fh fi' = fd /\ handle_acts_on fi' fd).
Proof.
  intros Hpre Hfd.
  assert (to_uint64 fd = fd) as Hu by (apply to_uint64_id; lia).
  assert (handle_acts_on (set_fh fi (to_uint64 fd)) fd) as Hacts.
  { apply handle_ops_use_fh. simpl. apply to_int_to_uint64, Hfd. }
  split.
  - intros Hopen. exists (set_fh fi (to_uint64 fd)).
    rewrite (bru_open_result g context path fi k k1 fd k2 Hpre Hopen).
    destruct (fd <? 0) eqn:Hneg; [apply Z.ltb_lt in Hneg; lia|].
    split; [reflexivity|]. split; [exact Hu | exact Hacts].
  - intros mode Hcreat. exists (set_fh fi (to_uint64 fd)).
    rewrite (bru_create_result g context path mode fi k k1 fd k2 Hpre Hcreat).
    split; [reflexivity|]. split; [exact Hu | exact Hacts].
Qed.

(** When [renameat] on the descriptors of the two backends succeeds, or
    fails with anything but [EXDEV], [bru_rename] is that call: it returns
    zero or the negated error number, with no copy, for any bound on the
    copy loop. *)
Lemma bru_rename_direct fuel g context old_path new_path k k1 r k2 :
  SET_CALLER_UID context k = (inr tt, k1) ->
  sys_renameat (GET_FD_REF g (MAKE_RELATIVE old_path)) (MAKE_RELATIVE old_path)
    (GET_FD_REF g (MAKE_RELATIVE new_path)) (MAKE_RELATIVE new_path) k1 = (r, k2) ->
  (r < 0 -> errno k2 <> EXDEV) ->
  bru_rename fuel g context old_path new_path k
  = Some (if r <? 0 then - errno k2 else 0, k2).
Proof.
  intros Hpre Hren Hnot. unfold bru_rename. rewrite Hpre, Hren.
  destruct (r <? 0) eqn:Hneg.
  - apply Z.ltb_lt in Hneg. specialize (Hnot Hneg).
    destruct (- errno k2 =? - EXDEV) eqn:Heq; [apply Z.eqb_eq in Heq; lia|].
    simpl. unfold SET_RET_ERRNO. destruct (- errno k2 <? 0); reflexivity.
  - reflexivity.
Qed.

(** [bru_readlink] once the working directory is set, when [readlink]
    has placed [n] bytes: the terminator is stored at index [n] as long as
    [n] is not above [bufsize]. *)
Lemma bru_readlink_result g context path buf bufsize k k1 n placed k2 :
  (SET_CALLER_UID context ;;; CHDIR_REF g (MAKE_RELATIVE path)) k = (inr tt, k1) ->
  sys_readlink (MAKE_RELATIVE path) bufsize k1 = ((n, placed), k2) ->
  0 <= n < 2 ^ 31 -> n <= bufsize ->
  bru_readlink g context path buf bufsize k =
    ({| rl_ret := 0;
        rl_buf := <[Z.to_nat n := NUL]> (fill buf placed);
        rl_terminator := Some n |}, k2).
Proof.
  intros Hpre Hrl Hn Hle. unfold bru_readlink.
  unfold fbind in *. unfold call.
  destruct (SET_CALLER_UID context k) as [[r|u] k0]; [discriminate|].
  destruct (CHDIR_REF g (MAKE_RELATIVE path) k0) as [[r|u'] k0']; [discriminate|].
  injection Hpre as _ ->. rewrite Hrl. cbv zeta.
  rewrite to_int_id by lia.
  destruct (n <? 0) eqn:Hneg; [apply Z.ltb_lt in Hneg; lia|].
  rewrite to_uint64_id by lia.
  destruct (n <=? bufsize) eqn:Hcmp; [reflexivity|].
  apply Z.leb_gt in Hcmp. lia.
Qed.

(** With room left in the buffer the terminator lands inside it. *)
Lemma bru_readlink_terminated g context path buf bufsize k k1 n placed k2 :
  (SET_CALLER_UID context ;;; CHDIR_REF g (MAKE_RELATIVE path)) k = (inr tt, k1) ->
  sys_readlink (MAKE_RELATIVE path) bufsize k1 = ((n, placed), k2) ->
  Z.of_nat (length buf) = bufsize -> bufsize < 2 ^ 31 -> 0 <= n < bufsize ->
  let r := (bru_readlink g context path buf bufsize k).1 in
  rl_ret r = 0 /\ rl_terminator r = Some n /\ rl_buf r !! Z.to_nat n = Some NUL.
Proof.
  intros Hpre Hrl Hlen Hsize Hn.
  rewrite (bru_readlink_result g context path buf bufsize k k1 n placed k2 Hpre Hrl)
    by lia.
  simpl. repeat split. apply list_lookup_insert_eq.
  unfold fill. rewrite length_app, length_take, length_drop. lia.
Qed.

(** With the buffer full the store is at index [bufsize], one past the
    last byte of the buffer. *)
Lemma bru_readlink_full_buffer g context path buf bufsize k k1 placed k2 :
  (SET_CALLER_UID context ;;; CHDIR_REF g (MAKE_RELATIVE path)) k = (inr tt, k1) ->
  sys_readlink (MAKE_RELATIVE path) bufsize k1 = ((bufsize, placed), k2) ->
  0 <= bufsize < 2 ^ 31 ->
  rl_terminator (bru_readlink g context path buf bufsize k).1 = Some bufsize.
Proof.
  intros Hpre Hrl Hsize.
  rewrite (bru_readlink_result g context path buf bufsize k k1 bufsize placed k2 Hpre Hrl)
    by lia.
  reflexivity.
Qed.

End Generic.

Import World Examples.

(** C5, on the code: the link [/tmp/link] has a target of four bytes and the
    caller's buffer holds four.  [readlink] fills the buffer and returns
    four; [bru_readlink] returns success with its terminator stored at index
    four, which is not an index of the buffer, and the buffer itself holds
    no terminator. *)
Theorem C5_readlink_terminator_past_buffer :
  let bufsize := 4 in
  let r := (bru_readlink (H := stack_kernel) table_tmp caller "/tmp/link"
              four_bytes bufsize world_tmp).1 in
  Z.of_nat (length four_bytes) = bufsize
  /\ (sys_readlink (Kernel := stack_kernel) "tmp/link" bufsize world_tmp_at_link).1
     = (bufsize, list_ascii_of_string "abcd")
  /\ rl_ret r = 0
  /\ rl_terminator r = Some bufsize
  /\ ~ (0 <= bufsize < Z.of_nat (length four_bytes))
  /\ rl_buf r = list_ascii_of_string "abcd"
  /\ (NUL ∉ rl_buf r).
Proof.
  cbv zeta.
  assert ((bru_readlink (H := stack_kernel) table_tmp caller "/tmp/link"
             four_bytes 4 world_tmp).1
          = {| rl_ret := 0; rl_buf := list_ascii_of_string "abcd";
               rl_terminator := Some 4 |}) as -> by (vm_compute; reflexivity).
  repeat split; try (vm_compute; reflexivity).
  - simpl. lia.
  - simpl. rewrite !elem_of_cons, elem_of_nil.
    intros [Hc|[Hc|[Hc|[Hc|[]]]]]; discriminate.
Qed.

Lemma bru_rename_direct_witness :
  bru_rename (H := stack_kernel) 0 table_tmp caller "/tmp/x" "/tmp/z" world_tmp
  = Some (if 0 <? 0 then - errno (Kernel := stack_kernel)
                              (sys_renameat (Kernel := stack_kernel) 4 "tmp/x" 4 "tmp/z"
                                 world_tmp_as_caller).2
          else 0,
          (sys_renameat (Kernel := stack_kernel) 4 "tmp/x" 4 "tmp/z"
             world_tmp_as_caller).2).
Proof.
  apply (bru_rename_direct (H := stack_kernel) 0 table_tmp caller "/tmp/x" "/tmp/z"
           world_tmp world_tmp_as_caller 0).
  - vm_compute. reflexivity.
  - vm_compute. reflexivity.
  - lia.
Defined.

Lemma bru_open_result_witness :
  bru_open (H := stack_kernel) table_tmp caller "/tmp/x" fresh_handle world_tmp =
    if 5 <? 0 then ((- errno (Kernel := stack_kernel) world_tmp_opened, fresh_handle),
                    world_tmp_opened)
    else ((0, set_fh fresh_handle (to_uint64 5)), world_tmp_opened).
Proof.
  apply (bru_open_result (H := stack_kernel) table_tmp caller "/tmp/x" fresh_handle
           world_tmp world_tmp_routed 5 world_tmp_opened).
  - vm_compute. reflexivity.
  - vm_compute. reflexivity.
Defined.

Lemma bru_create_result_witness :
  bru_create (H := stack_kernel) table_tmp caller "/tmp" 420 fresh_handle world_tmp =
    ((0, set_fh fresh_handle (to_uint64 (-1))),
     (sys_creat (Kernel := stack_kernel) "tmp" 420 world_tmp_at_tmp).2).
Proof.
  apply (bru_create_result (H := stack_kernel) table_tmp caller "/tmp" 420 fresh_handle
           world_tmp world_tmp_at_tmp (-1)).
  - vm_compute. reflexivity.
  - vm_compute. reflexivity.
Defined.

Lemma bru_readlink_terminated_witness :
  let r := (bru_readlink (H := stack_kernel) table_tmp caller "/tmp/link"
              (replicate 8 "x"%char) 8 world_tmp).1 in
  rl_ret r = 0 /\ rl_terminator r = Some 4 /\ rl_buf r !! Z.to_nat 4 = Some NUL.
Proof.
  apply (bru_readlink_terminated (H := stack_kernel) table_tmp caller "/tmp/link"
           (replicate 8 "x"%char) 8 world_tmp world_tmp_at_link 4
           (list_ascii_of_string "abcd") world_tmp_at_link).
  - vm_compute. reflexivity.
  - vm_compute. reflexivity.
  - reflexivity.
  - lia.
  - lia.
Defined.

Lemma bru_readlink_full_buffer_witness :
  rl_terminator (bru_readlink (H := stack_kernel) table_tmp caller "/tmp/link"
                   four_bytes 4 world_tmp).1 = Some 4.
Proof.
  apply (bru_readlink_full_buffer (H := stack_kernel) table_tmp caller "/tmp/link"
           four_bytes 4 world_tmp world_tmp_at_link (list_ascii_of_string "abcd")
           world_tmp_at_link).
  - vm_compute. reflexivity.
  - vm_compute. reflexivity.
  - lia.
Defined.

Lemma C6_handle_sticky_witness :
  exists fi',
    bru_open (H := stack_kernel) table_tmp caller "/tmp/x" fresh_handle world_tmp
      = ((0, fi'), world_tmp_opened)
    /\ fh fi' = 5 /\ handle_acts_on (H := stack_kernel) fi' 5.
Proof.
  refine (proj1 (C6_handle_sticky (H := stack_kernel) table_tmp caller "/tmp/x"
                   fresh_handle world_tmp world_tmp_routed 5 world_tmp_opened _ _) _).
  - vm_compute. reflexivity.
  - lia.
  - vm_compute. reflexivity.
Defined.

(** The handle opened on [/tmp/x], which is routed to the alt point, still
    reads the file of the alt point when the operation is given an empty
    routing table and another path. *)
Example sticky_read_alt :
  (bru_read (H := stack_kernel) table_none caller "/var/x" 100 0
     {| flags := O_RDONLY; fh := 5 |} world_tmp_opened).1
  = (7, list_ascii_of_string "payload").
Proof. vm_compute. reflexivity. Qed.

(** C4, on the code: [creat] of [/tmp], a directory, fails with [EISDIR];
    [bru_create] stores the failed result in the unsigned handle, finds it
    not below zero and returns zero, where [bru_open] at the same failure
    returns the negated error number. *)
Theorem C4_create_failure_unreported :
  let creat_result := sys_creat (Kernel := stack_kernel) "tmp" 420 world_tmp_at_tmp in
  let open_result := sys_open (Kernel := stack_kernel) "tmp" O_WRONLY world_tmp_at_tmp in
  creat_result.1 = -1 /\ errno (Kernel := stack_kernel) creat_result.2 = EISDIR
  /\ (bru_create (H := stack_kernel) table_tmp caller "/tmp" 420 fresh_handle world_tmp).1
     = (0, {| flags := O_RDONLY; fh := 2 ^ 64 - 1 |})
  /\ open_result.1 = -1 /\ errno (Kernel := stack_kernel) open_result.2 = EISDIR
  /\ (bru_open (H := stack_kernel) table_tmp caller "/tmp"
        {| flags := O_WRONLY; fh := 0 |} world_tmp).1
     = (- EISDIR, {| flags := O_WRONLY; fh := 0 |}).
Proof. vm_compute. repeat split; reflexivity. Qed.

End HandleFacts.

(** ** Startup *)

Module StartupFacts.
Import CInt Bru BruFacts.







Section Generic.
Context {K : Type} `{Kernel K}.




(** The refusals of [main], in the order it makes them: fewer than two
    arguments print the usage on the standard output before anything is
    asked of the kernel; then a user other than root, then a missing alt
    directory argument, then a mount point and an alt point that do not
    open, each with its own message and status one. *)
Theorem bru_main_refusals argv k :
  let r := bru_main argv k in
  ((length argv < 2)%nat -> r = (exit_with 1 [usage] [], k))
  /\ ((2 <= length argv)%nat ->
      (sys_getuid k).1 <> 0 ->
      r = (exit_with 1 [] ["ERROR: not running as root, aborting." +:+ newline],
           (sys_getuid k).2))
  /\ (length argv = 2%nat ->
      (sys_getuid k).1 = 0 ->
      r = (exit_with 1 [] ["ERROR: Insufficient arguments." +:+ newline],
           (sys_getuid k).2))
  /\ ((3 <= length argv)%nat ->
      (sys_getuid k).1 = 0 ->
      (sys_open (argv_at argv 1) O_DIRECTORY (sys_getuid k).2).1 = -1 ->
      r.1 = exit_with 1 []
              ["ERROR: Could not open mount point " +:+ dquote +:+ argv_at argv 1
                 +:+ dquote +:+ ", aborting." +:+ newline])
  /\ ((3 <= length argv)%nat ->
      (sys_getuid k).1 = 0 ->
      (sys_open (argv_at argv 1) O_DIRECTORY (sys_getuid k).2).1 <> -1 ->
      (sys_open (argv_at argv 2) O_DIRECTORY
         (sys_open (argv_at argv 1) O_DIRECTORY (sys_getuid k).2).2).1 = -1 ->
      r.1 = exit_with 1 []
              ["ERROR: Could not open alt point " +:+ dquote +:+ argv_at argv 2
                 +:+ dquote +:+ ", aborting." +:+ newline]).
Proof.
  cbv zeta. unfold bru_main.
  destruct (sys_getuid k) as [u k1]. cbn [fst snd].
  destruct (sys_open (argv_at argv 1) O_DIRECTORY k1) as [mfd k2]. cbn [fst snd].
  destruct (sys_open (argv_at argv 2) O_DIRECTORY k2) as [afd k3]. cbn [fst snd].
  repeat split.
  - intros Hlen.
    destruct (Z.of_nat (length argv) <? 2) eqn:H2; [reflexivity|].
    apply Z.ltb_ge in H2. lia.
  - intros Hlen Hu.
    destruct (Z.of_nat (length argv) <? 2) eqn:H2; [apply Z.ltb_lt in H2; lia|].
    destruct (u =? 0) eqn:Hu0; [apply Z.eqb_eq in Hu0; contradiction | reflexivity].
  - intros Hlen ->.
    destruct (Z.of_nat (length argv) <? 2) eqn:H2; [apply Z.ltb_lt in H2; lia|].
    cbn [Z.eqb negb].
    destruct (Z.of_nat (length argv) <? 3) eqn:H3; [reflexivity|].
    apply Z.ltb_ge in H3. lia.
  - intros Hlen -> ->.
    destruct (Z.of_nat (length argv) <? 2) eqn:H2; [apply Z.ltb_lt in H2; lia|].
    cbn [Z.eqb negb].
    destruct (Z.of_nat (length argv) <? 3) eqn:H3; [apply Z.ltb_lt in H3; lia|].
    reflexivity.
  - intros Hlen -> Hm ->.
    destruct (Z.of_nat (length argv) <? 2) eqn:H2; [apply Z.ltb_lt in H2; lia|].
    cbn [Z.eqb negb].
    destruct (Z.of_nat (length argv) <? 3) eqn:H3; [apply Z.ltb_lt in H3; lia|].
    destruct (mfd =? -1) eqn:Hmfd; [apply Z.eqb_eq in Hmfd; contradiction|].
    reflexivity.
Qed.


End Generic.

Import World Examples.

Lemma bru_main_refusals_witness :
  bru_main (H := stack_kernel) ["bru"] world_tmp = (exit_with 1 [usage] [], world_tmp).
Proof.
  apply (bru_main_refusals (H := stack_kernel) ["bru"] world_tmp). simpl. lia.
Defined.


(** C9 as stated fails on an empty alternate path: it neither begins nor
    ends with the separator for the validation loop, startup reaches
    [fuse_main], and the routing table holds the empty entry. *)
Lemma C9_empty_entry_accepted :
  ~ (forall g args,
        outcome (bru_main (H := stack_kernel) argv_empty_entry world_tmp).1
          = FuseMain g args ->
        Forall (fun e => e <> EmptyString) (alt_files g)).
Proof.
  intros Hclaim.
  specialize (Hclaim (globals_of_main 3 4 [EmptyString])
                ["bru"; "/mount"; "-s"; "-oallow_other,nonempty"; "-f"]).
  assert (Forall (fun e => e <> EmptyString)
            (alt_files (globals_of_main 3 4 [EmptyString]))) as Hall.
  { apply Hclaim. vm_compute. reflexivity. }
  inversion Hall as [|? ? Hne _]. apply Hne. reflexivity.
Qed.

End StartupFacts.

(** ** Requests on the reference kernel *)

Module WorldFacts.
Import CInt Bru BruFacts World.

Section Routing.
Variable va : stat -> Z.
Let kernel : Kernel world := world_kernel va.

Lemma dir_of_fd_mount w g : serves w g -> dir_of_fd w (mount_fd g) = Some MountPoint.
Proof.
  intros (Hm & _ & _). unfold dir_of_fd. rewrite Hm.
  destruct (decide _) as [_|Hn]; [reflexivity | contradiction].
Qed.

Lemma dir_of_fd_alt w g : serves w g -> dir_of_fd w (alt_fd g) = Some AltPoint.
Proof.
  intros (_ & Ha & Hne). unfold dir_of_fd. rewrite Ha.
  destruct (decide (w_alt_fd w = w_mount_fd w)) as [Heq|_]; [congruence|].
  destruct (decide _) as [_|Hn]; [reflexivity | contradiction].
Qed.

Lemma dir_of_fd_ref w g path :
  serves w g -> dir_of_fd w (GET_FD_REF g path) = Some (classify g path).
Proof.
  intros Hs. unfold GET_FD_REF.
  destruct (classify g path); [apply dir_of_fd_mount | apply dir_of_fd_alt]; exact Hs.
Qed.

Lemma w_fchdir_mount w g :
  serves w g -> w_fchdir (mount_fd g) w = (0, set_cwd (Some MountPoint) w).
Proof. intros Hs. unfold w_fchdir. rewrite (dir_of_fd_mount w g Hs). reflexivity. Qed.

Lemma w_fchdir_alt w g :
  serves w g -> w_fchdir (alt_fd g) w = (0, set_cwd (Some AltPoint) w).
Proof. intros Hs. unfold w_fchdir. rewrite (dir_of_fd_alt w g Hs). reflexivity. Qed.

(** After [SET_CALLER_UID] and [CHDIR_REF] the effective identity is the
    caller's and the working directory is the backend the path is
    classified to; nothing else has changed. *)
Theorem request_is_routed w g context rel :
  serves w g ->
  (SET_CALLER_UID (H := kernel) context ;;; CHDIR_REF (H := kernel) g rel) w
  = (inr tt, routed context (classify g rel) w).
Proof.
  intros Hs. unfold SET_CALLER_UID, CHDIR_REF, fbind, call, fret. simpl.
  rewrite w_fchdir_mount by exact Hs. simpl.
  unfold classify, routed.
  destruct (alt_scan (alt_entries g) rel).
  - rewrite w_fchdir_alt by exact Hs. reflexivity.
  - reflexivity.
Qed.


End Routing.

Section CopyLoop.
Variable va : stat -> Z.
Let kernel : Kernel world := world_kernel va.

Variables (base : world) (bo bn : backend) (op np : string) (src dst : inode).
Variables (fd1 fd2 : Z).
Hypothesis backends_differ : bo <> bn.
Hypothesis op_not_dot : op <> ".".
Hypothesis np_not_dot : np <> ".".
Hypothesis fds_differ : fd1 <> fd2.
Hypothesis src_there : tree base bo !! op = Some src.
Hypothesis src_file : is_dir src = false.

Let data := i_data src.





Lemma lookup_path_named (t : gmap string inode) path :
  path <> "." -> lookup_path t path = t !! path.
Proof. intros Hp. unfold lookup_path. destruct (decide _); [contradiction | reflexivity]. Qed.





End CopyLoop.

Section Rename.
Variable va : stat -> Z.
Let kernel : Kernel world := world_kernel va.




(** [bru_create] in a directory that does not exist: [creat] fails with
    [ENOENT] and creates nothing, and [bru_create] still returns zero, with
    the failed result as the handle. *)
Theorem create_failure_silent w g context path mode fi :
  let rel := MAKE_RELATIVE path in
  let b := classify g rel in
  serves w g -> rel <> "." ->
  tree w b !! rel = None -> parent_is_dir (tree w b) rel = false ->
  exists w',
    bru_create (H := kernel) g context path mode fi w
      = ((0, set_fh fi (2 ^ 64 - 1)), w')
    /\ w_errno w' = ENOENT
    /\ (forall b', tree w' b' = tree w b')
    /\ w_fds w' = w_fds w.
Proof.
  intros rel b Hs Hrel Hnone Hparent.
  pose proof (request_is_routed va w g context rel Hs) as Hr. fold b in Hr.
  eexists. split.
  - change (2 ^ 64 - 1) with (to_uint64 (-1)).
    apply (HandleFacts.bru_create_result (H := kernel) g context path mode fi w _ _ _ Hr).
    unfold kernel. cbn [sys_creat world_kernel]. unfold w_creat, open_at.
    change (w_cwd (routed context b w)) with (Some b). cbv iota beta.
    change (tree (routed context b w) b) with (tree w b).
    fold rel. rewrite (lookup_path_named _ rel Hrel), Hnone, Hparent.
    rewrite andb_false_r. reflexivity.
  - split; [reflexivity|]. split; [intros b'; destruct b'; reflexivity | reflexivity].
Qed.


End Rename.

Import Examples.

Lemma serves_tmp : serves world_tmp table_tmp.
Proof. repeat split. discriminate. Qed.


(** The scenario of the specification: [/tmp/x], mode 0644 under the alt
    point, renamed to [/var/x] under the mount point.  The copy has the
    contents; its permission bits are the low bits of the device number. *)
Example rename_scenario :
  option_map (fun r => (r.1, w_alt r.2 !! "tmp/x", w_mount r.2 !! "var/x"))
    (bru_rename (H := stack_kernel) 8 table_tmp caller "/tmp/x" "/var/x" world_tmp)
  = Some (0, None,
          Some {| i_ino := 100; i_mode := Z.lor S_IFREG 2050;
                  i_data := list_ascii_of_string "payload" |}).
Proof. vm_compute. reflexivity. Qed.


Lemma create_failure_silent_witness :
  exists w',
    bru_create (H := stack_kernel) table_tmp caller "/nodir/new" 420 fresh_handle world_tmp
      = ((0, set_fh fresh_handle (2 ^ 64 - 1)), w')
    /\ w_errno w' = ENOENT
    /\ (forall b', tree w' b' = tree world_tmp b')
    /\ w_fds w' = w_fds world_tmp.
Proof.
  apply (create_failure_silent leading_word world_tmp table_tmp caller "/nodir/new" 420
           fresh_handle).
  - exact serves_tmp.
  - intros H. vm_compute in H. discriminate H.
  - vm_compute. reflexivity.
  - vm_compute. reflexivity.
Defined.


Lemma request_is_routed_witness :
  (SET_CALLER_UID (H := stack_kernel) caller ;;;
   CHDIR_REF (H := stack_kernel) table_tmp "tmp/x") world_tmp
  = (inr tt, routed caller (classify table_tmp "tmp/x") world_tmp).
Proof. exact (request_is_routed leading_word world_tmp table_tmp caller "tmp/x" serves_tmp). Defined.


(** [/tmp/a] exists under the mount point only; the table routes it to the
    alt point, and [bru_getattr] does not find it. *)
Example getattr_hidden :
  (bru_getattr (H := stack_kernel) table_tmp caller "/tmp/a" world_tmp).1
  = (- ENOENT, Some blank_stat).
Proof. vm_compute. reflexivity. Qed.

End WorldFacts.

(** ** Names and links on the reference kernel *)

Module PathFacts.
Import CInt Bru BruFacts World BruPaths WorldFacts.

Section Routed.
Variable va : stat -> Z.
Let kernel : Kernel world := world_kernel va.
Let paths : PathKernel world := world_paths.



(** [bru_link] between paths routed to backends on different devices
    returns [-EXDEV] and changes neither backend: unlike [bru_rename] it has
    no fallback. *)
Theorem link_across_backends w g context old_path new_path :
  let bo := classify g (MAKE_RELATIVE old_path) in
  let bn := classify g (MAKE_RELATIVE new_path) in
  let r := bru_link (H := kernel) (H0 := paths) g context old_path new_path w in
  serves w g -> dev w bo <> dev w bn ->
  r.1 = - EXDEV /\ forall b', tree r.2 b' = tree w b'.
Proof.
  intros bo bn r Hs Hdev. subst r.
  unfold bru_link, run, SET_CALLER_UID, get_errno, fbind, call, fret.
  unfold kernel, paths.
  cbn [sys_setegid sys_seteuid sys_linkat errno world_kernel world_paths].
  unfold w_setegid, w_seteuid. cbv iota beta. unfold w_linkat.
  set (w1 := set_ids (uid context) _ _).
  assert (serves w1 g) as Hs1 by exact Hs.
  rewrite !(dir_of_fd_ref _ g _ Hs1). fold bo bn.
  destruct (decide (dev w1 bo = dev w1 bn)) as [Heq|_]; [contradiction|].
  split; [reflexivity | intros b'; destruct b'; reflexivity].
Qed.







End Routed.

Section Failures.
Context {K : Type} `{Kernel K} `{PathKernel K}.

Lemma CHDIR_REF_fails g path k r k' :
  sys_fchdir (mount_fd g) k = (r, k') -> r < 0 ->
  CHDIR_REF g path k = (inl (- errno k'), k').
Proof.
  intros Hch Hneg. unfold CHDIR_REF, fbind, call, get_errno, freturn. rewrite Hch.
  apply Z.ltb_lt in Hneg. rewrite Hneg. reflexivity.
Qed.

(** When the process cannot change into the directory under the mount
    point, every operation that works through [CHDIR_REF] returns the
    negated error number of that failure and stops there: the state is the
    one the failed [fchdir] left, no other call is made, and handles and
    buffers are as they were. *)
Theorem operations_when_fchdir_fails g context path k k1 r k2 :
  SET_CALLER_UID context k = (inr tt, k1) ->
  sys_fchdir (mount_fd g) k1 = (r, k2) -> r < 0 ->
  bru_getattr g context path k = ((- errno k2, None), k2)
  /\ (forall buf bufsize,
        bru_readlink g context path buf bufsize k
        = ({| rl_ret := - errno k2; rl_buf := buf; rl_terminator := None |}, k2))
  /\ (forall fi, bru_open g context path fi k = ((- errno k2, fi), k2))
  /\ (forall mode fi, bru_create g context path mode fi k = ((- errno k2, fi), k2))
  /\ (forall mode, bru_mkdir g context path mode k = (- errno k2, k2))
  /\ bru_unlink g context path k = (- errno k2, k2)
  /\ bru_rmdir g context path k = (- errno k2, k2)
  /\ (forall target, bru_symlink g context target path k = (- errno k2, k2))
  /\ (forall mode, bru_chmod g context path mode k = (- errno k2, k2))
  /\ (forall len, bru_truncate g context path len k = (- errno k2, k2)).
Proof.
  intros Hpre Hch Hneg.
  pose proof (CHDIR_REF_fails g (MAKE_RELATIVE path) k1 r k2 Hch Hneg) as Hfail.
  unfold bru_getattr, bru_readlink, bru_open, bru_create, bru_mkdir, bru_unlink,
    bru_rmdir, bru_symlink, bru_chmod, bru_truncate, run, fbind.
  rewrite Hpre, Hfail. repeat split.
Qed.

End Failures.

Import Examples.


Lemma operations_when_fchdir_fails_witness :
  bru_unlink (H := stack_kernel) (H0 := world_paths) table_stale caller "/tmp/x" world_tmp
  = (- errno (Kernel := stack_kernel)
         (sys_fchdir (Kernel := stack_kernel) 99 world_tmp_as_caller).2,
     (sys_fchdir (Kernel := stack_kernel) 99 world_tmp_as_caller).2).
Proof.
  apply (operations_when_fchdir_fails (H := stack_kernel) (H0 := world_paths) table_stale
           caller "/tmp/x" world_tmp world_tmp_as_caller (-1)).
  - vm_compute. reflexivity.
  - vm_compute. reflexivity.
  - lia.
Defined.


(** [/tmp/a] exists under the mount point only: through the union it cannot
    be removed, and it stays where it is. *)
Example unlink_hidden :
  let r := bru_unlink (H := stack_kernel) (H0 := world_paths) table_tmp caller "/tmp/a"
             world_tmp in
  r.1 = - ENOENT /\ w_mount r.2 !! "tmp/a" = Some (regular 11 420 "a").
Proof. vm_compute. split; reflexivity. Qed.

Lemma link_across_backends_witness :
  let r := bru_link (H := stack_kernel) (H0 := world_paths) table_tmp caller "/tmp/x"
             "/var/y" world_tmp in
  r.1 = - EXDEV /\ forall b', tree r.2 b' = tree world_tmp b'.
Proof.
  apply (link_across_backends leading_word world_tmp table_tmp caller "/tmp/x" "/var/y").
  - exact serves_tmp.
  - intros H. vm_compute in H. discriminate H.
Defined.





End PathFacts.

(** ** The chroot switch *)

Module BrcFacts.
Import Brc.

Lemma first_true (P : nat -> bool) n :
  P n = true ->
  exists j, (j <= n)%nat /\ P j = true /\ forall i, (i < j)%nat -> P i = false.
Proof.
  revert P. induction n as [|n IH]; intros P Hn.
  - exists O. repeat split; [lia | exact Hn | intros i Hi; lia].
  - destruct (P O) eqn:H0.
    + exists O. repeat split; [lia | exact H0 | intros i Hi; lia].
    + destruct (IH (fun i => P (S i)) Hn) as (j & Hj & HPj & Hmin).
      exists (S j). repeat split; [lia | exact HPj |].
      intros [|i] Hi; [exact H0 | apply Hmin; lia].
Qed.

Section Generic.
Context {dir : Type} `{EqDecision dir}.
Implicit Types (m : @machine dir) (p : @proc dir).

Lemma chdir_dotdot m p : chdir m ".." p = (0, set_cwd (dotdot m p) p).
Proof. reflexivity. Qed.

Lemma lstat_dot m p buf : lstat m p "." buf = lstat_dir m (cwd p).
Proof. reflexivity. Qed.

Lemma lstat_dotdot m p buf : lstat m p ".." buf = lstat_dir m (dotdot m p).
Proof. reflexivity. Qed.

(** One turn of the loop: go up, then stop if the directory is its own
    parent by (device, inode). *)
Lemma ascend_step fuel m p :
  ascend (S fuel) m p =
    let p1 := set_cwd (dotdot m p) p in
    if root_like m (root p) (cwd p1) then Some p1 else ascend fuel m p1.
Proof.
  cbn [ascend]. rewrite chdir_dotdot, lstat_dot, lstat_dotdot. cbv zeta.
  unfold root_like, same_file, dotdot. simpl.
  destruct (st_ino _ =? st_ino _), (st_dev _ =? st_dev _); reflexivity.
Qed.

Lemma ascend_reaches m r n :
  forall p fuel,
    root p = r ->
    (forall i, (i < n)%nat -> root_like m r (Nat.iter (S i) (up m r) (cwd p)) = false) ->
    root_like m r (Nat.iter (S n) (up m r) (cwd p)) = true ->
    (S n <= fuel)%nat ->
    ascend fuel m p = Some (set_cwd (Nat.iter (S n) (up m r) (cwd p)) p).
Proof.
  induction n as [|n IH]; intros p fuel Hr Hbelow Hat Hfuel.
  - destruct fuel as [|fuel]; [lia|]. rewrite ascend_step. cbv zeta.
    unfold dotdot. rewrite Hr. cbn [cwd set_cwd].
    change (Nat.iter 1 (up m r) (cwd p)) with (up m r (cwd p)) in Hat.
    rewrite Hat. reflexivity.
  - destruct fuel as [|fuel]; [lia|]. rewrite ascend_step. cbv zeta.
    unfold dotdot. rewrite Hr. cbn [cwd set_cwd].
    pose proof (Hbelow O ltac:(lia)) as H0.
    change (Nat.iter 1 (up m r) (cwd p)) with (up m r (cwd p)) in H0.
    rewrite H0.
    rewrite (IH (set_cwd (up m r (cwd p)) p) fuel).
    + cbn [cwd set_cwd]. rewrite <- !Nat.iter_succ_r. reflexivity.
    + exact Hr.
    + intros i Hi. cbn [cwd set_cwd]. rewrite <- Nat.iter_succ_r.
      apply Hbelow. lia.
    + cbn [cwd set_cwd]. rewrite <- Nat.iter_succ_r. exact Hat.
    + lia.
Qed.

(** C7: when some directory reached from the starting directory by one or
    more ascents is its own parent by (device, inode), the ascent loop ends:
    given enough iterations it stops at the nearest such directory, after
    at most as many ascents as it takes to reach the given one, and
    [break_out_of_chroot] makes that directory the root. *)
Theorem C7_ascent_terminates m p confdir n :
  lookup m (root p) (root p) CONFIGDIR = Some confdir ->
  root_like m confdir (Nat.iter (S n) (up m confdir) (root p)) = true ->
  exists j,
    (j <= n)%nat
    /\ root_like m confdir (Nat.iter (S j) (up m confdir) (root p)) = true
    /\ (forall i, (i < j)%nat ->
          root_like m confdir (Nat.iter (S i) (up m confdir) (root p)) = false)
    /\ forall fuel, (S j <= fuel)%nat ->
         exists p',
           break_out_of_chroot fuel m p = Goes tt p'
           /\ cwd p' = Nat.iter (S j) (up m confdir) (root p)
           /\ root p' = Nat.iter (S j) (up m confdir) (root p).
Proof.
  intros Hconf Hfix.
  destruct (first_true
              (fun i => root_like m confdir (Nat.iter (S i) (up m confdir) (root p)))
              n Hfix) as (j & Hj & Hat & Hbelow).
  exists j. split; [exact Hj|]. split; [exact Hat|]. split; [exact Hbelow|].
  intros fuel Hfuel.
  unfold break_out_of_chroot.
  change (chdir m "/" (log BreakOutOfChroot p))
    with (0, set_cwd (root p) (log BreakOutOfChroot p)).
  cbv iota beta.
  unfold chroot, resolve. simpl. rewrite Hconf. simpl.
  rewrite (ascend_reaches m confdir j
             (set_root confdir (set_cwd (root p) (log BreakOutOfChroot p)))
             fuel eq_refl Hbelow Hat Hfuel).
  simpl. eexists. split; [reflexivity|]. split; reflexivity.
Qed.

(** The ascent changes the working directory only. *)
Lemma ascend_frame fuel m p p' :
  ascend fuel m p = Some p' ->
  root p' = root p /\ trace p' = trace p /\ stderr p' = stderr p.
Proof.
  revert p. induction fuel as [|fuel IH]; intros p; [discriminate|].
  rewrite ascend_step. cbv zeta.
  destruct (root_like m (root p) _).
  - intros [= <-]. repeat split.
  - intros Hrec. apply IH in Hrec. exact Hrec.
Qed.

(** [break_out_of_chroot] either ends the process with status one, when the
    configuration directory cannot be made the root, or leaves the process
    rooted at its working directory; it logs nothing but itself. *)
Lemma break_out_cases fuel m p :
  match break_out_of_chroot fuel m p with
  | Goes _ p2 => root p2 = cwd p2 /\ trace p2 = trace p ++ [BreakOutOfChroot]
  | Quits status p2 => status = 1 /\ trace p2 = trace p ++ [BreakOutOfChroot]
                       /\ lookup m (root p) (root p) CONFIGDIR = None
  | OutOfFuel => True
  end.
Proof.
  unfold break_out_of_chroot.
  change (chdir m "/" (log BreakOutOfChroot p))
    with (0, set_cwd (root p) (log BreakOutOfChroot p)).
  cbv iota beta. unfold chroot, resolve. simpl.
  destruct (lookup m (root p) (root p) CONFIGDIR) as [confdir|] eqn:Hconf; simpl.
  - destruct (ascend fuel m _) as [p2|] eqn:Hasc; [|exact I].
    apply ascend_frame in Hasc as (_ & Htr & _). simpl in *.
    split; [reflexivity | exact Htr].
  - repeat split.
Qed.

(** What [main] does once out of the jail, at the directory [p2] where
    [break_out_of_chroot] left it: it goes down into the client's directory
    exactly when the client is not [pid1] and the directory differs from the
    current one by (device, inode); a client directory that cannot be
    entered ends the process with status one before any further change of
    root; otherwise the process is re-rooted where it stands, the working
    directory is restored and the command is run. *)
Theorem enter_client_cases fuel m argv client_path cwd_path p p2 out p' :
  cstring (argv_at argv 1) ->
  break_out_of_chroot fuel m p = Goes tt p2 ->
  enter_client fuel m argv client_path cwd_path p = Some (out, p') ->
  let differs :=
    negb (same_file (lstat_dir m (cwd p2)) (lstat m p2 client_path (uninit_stat m))) in
  if decide (argv_at argv 1 = "pid1" \/ differs = false) then
    root p' = cwd p2
    /\ exists cmd, trace p' = trace p2 ++ [ChrootHere; RestoreCwd cwd_path; Execvp cmd]
  else
    match resolve m p2 client_path with
    | None => out = Exited 1 /\ trace p' = trace p2 ++ [Descend client_path]
    | Some d =>
        root p' = d
        /\ exists cmd,
             trace p' = trace p2
                          ++ [Descend client_path; ChrootHere; RestoreCwd cwd_path;
                              Execvp cmd]
    end.
Proof.
  intros Hclient Hbreak. unfold enter_client. rewrite Hbreak.
  rewrite lstat_dot.
  assert (negb (strcmp (argv_at argv 1) "pid1" =? 0) = true
          <-> argv_at argv 1 <> "pid1") as Hpid.
  { rewrite negb_true_iff, Z.eqb_neq.
    rewrite (strcmp_eq _ "pid1" Hclient) by (simpl; repeat split; discriminate).
    reflexivity. }
  set (real := lstat_dir m (cwd p2)).
  set (client := lstat m p2 client_path (uninit_stat m)).
  assert ((negb (st_dev real =? st_dev client) || negb (st_ino real =? st_ino client))
          = negb (same_file real client)) as Hd.
  { unfold same_file. destruct (st_dev real =? _), (st_ino real =? _); reflexivity. }
  rewrite Hd. cbv zeta.
  destruct (negb (strcmp (argv_at argv 1) "pid1" =? 0)) eqn:Hcmp.
  - assert (argv_at argv 1 <> "pid1") as Hne by (apply Hpid; reflexivity).
    destruct (negb (same_file real client)) eqn:Hdiff; simpl.
    + destruct (decide _) as [[?|?]|_]; [contradiction | discriminate |].
      unfold chdir at 1. change (resolve m (log (Descend client_path) p2) client_path)
        with (resolve m p2 client_path).
      destruct (resolve m p2 client_path) as [d|]; simpl.
      * unfold chroot, chdir, resolve; simpl.
        destruct (decide (cwd_path = ".")), (decide (cwd_path = "..")),
          (decide (cwd_path = "/")), (lookup m d d cwd_path);
          simpl; destruct (exec_ok m _ _ _); intros [= <- <-]; simpl;
          (split; [reflexivity|]); eexists; rewrite <- !app_assoc; reflexivity.
      * intros [= <- <-]. simpl. split; reflexivity.
    + destruct (decide _) as [_|Hn]; [|exfalso; apply Hn; right; reflexivity].
      unfold chroot, chdir, resolve; simpl.
      destruct (decide (cwd_path = ".")), (decide (cwd_path = "..")),
        (decide (cwd_path = "/")), (lookup m (cwd p2) (cwd p2) cwd_path);
        simpl; destruct (exec_ok m _ _ _); intros [= <- <-]; simpl;
        (split; [reflexivity|]); eexists; rewrite <- !app_assoc; reflexivity.
  - assert (argv_at argv 1 = "pid1") as He.
    { destruct (decide (argv_at argv 1 = "pid1")) as [?|Hn]; [assumption|].
      apply Hpid in Hn. congruence. }
    simpl. destruct (decide _) as [_|Hn]; [|exfalso; apply Hn; left; exact He].
    unfold chroot, chdir, resolve; simpl.
    destruct (decide (cwd_path = ".")), (decide (cwd_path = "..")),
      (decide (cwd_path = "/")), (lookup m (cwd p2) (cwd p2) cwd_path);
      simpl; destruct (exec_ok m _ _ _); intros [= <- <-]; simpl;
      (split; [reflexivity|]); eexists; rewrite <- !app_assoc; reflexivity.
Qed.


Lemma command_ext m argv p q :
  root p = root q -> cwd p = cwd q -> command m argv p = command m argv q.
Proof. intros Hr Hc. unfold command. rewrite Hr, Hc. reflexivity. Qed.




Lemma enter_client_trace fuel m argv client_path cwd_path p out p' :
  cstring (argv_at argv 1) ->
  enter_client fuel m argv client_path cwd_path p = Some (out, p') ->
  exists added,
    trace p' = trace p ++ BreakOutOfChroot :: added
    /\ (forall c, EnsureConfigSecure c ∉ added)
    /\ (argv_at argv 1 = "pid1" -> forall c, Descend c ∉ added).
Proof.
  intros Hclient Henter.
  pose proof (break_out_cases fuel m p) as Hbreak.
  destruct (break_out_of_chroot fuel m p) as [[] p2|status p2|] eqn:Hb.
  - destruct Hbreak as [_ Htr].
    pose proof (enter_client_cases fuel m argv client_path cwd_path p p2 out p'
                  Hclient Hb Henter) as Hcases.
    cbv zeta in Hcases.
    destruct (decide _) as [Hskip|Hgo].
    + destruct Hcases as [_ [cmd Htr']]. exists [ChrootHere; RestoreCwd cwd_path; Execvp cmd].
      rewrite Htr', Htr, <- app_assoc. split; [reflexivity|].
      split; intros; rewrite !elem_of_cons, elem_of_nil;
        intros [Hc|[Hc|[Hc|[]]]]; discriminate Hc.
    + assert (argv_at argv 1 <> "pid1") as Hne by tauto.
      destruct (resolve m p2 client_path) as [d|].
      * destruct Hcases as [_ [cmd Htr']].
        exists [Descend client_path; ChrootHere; RestoreCwd cwd_path; Execvp cmd].
        rewrite Htr', Htr, <- app_assoc. split; [reflexivity|].
        split; [|contradiction].
        intros c. rewrite !elem_of_cons, elem_of_nil.
        intros [Hc|[Hc|[Hc|[Hc|[]]]]]; discriminate Hc.
      * destruct Hcases as [_ Htr']. exists [Descend client_path].
        rewrite Htr', Htr, <- app_assoc. split; [reflexivity|].
        split; [|contradiction].
        intros c. rewrite !elem_of_cons, elem_of_nil. intros [Hc|[]]. discriminate Hc.
  - destruct Hbreak as (_ & Htr & _). unfold enter_client in Henter. rewrite Hb in Henter.
    injection Henter as _ <-. exists []. rewrite Htr. split; [reflexivity|].
    split; intros; apply not_elem_of_nil.
  - unfold enter_client in Henter. rewrite Hb in Henter. discriminate Henter.
Qed.

(** The checks of [main] before any change of root.  With a client name
    given, the capability check comes first; a process without the
    capability in both sets ends with status one having done nothing else.
    For the client [pid1] the configuration check and the descent into a
    client directory never happen.  For every other client the
    configuration check of [<client>.conf] comes next, and a rejected
    configuration ends the process with status one before the jail is left. *)
Theorem brc_main_checks fuel m argv p out p' :
  brc_main fuel m argv p = Some (out, p') ->
  (2 <= length argv)%nat ->
  cstring (argv_at argv 1) ->
  let config_path := strcat (strcat CONFIGDIR (argv_at argv 1)) ".conf" in
  exists added,
    trace p' = trace p ++ EnsureCapSysChroot (argv_at argv 0) :: added
    /\ (chroot_permitted m && chroot_effective m = false ->
        out = Exited 1 /\ added = [])
    /\ (chroot_permitted m && chroot_effective m = true ->
        if decide (argv_at argv 1 = "pid1") then
          (forall c, EnsureConfigSecure c ∉ added) /\ (forall c, Descend c ∉ added)
        else
          exists rest,
            added = EnsureConfigSecure config_path :: rest
            /\ (config_secure m config_path = false -> out = Exited 1 /\ rest = [])).
Proof.
  intros Hmain Hargc Hclient. unfold brc_main in Hmain.
  destruct (Z.of_nat (length argv) <? 2) eqn:Hlt; [apply Z.ltb_lt in Hlt; lia|].
  destruct (getcwd m (root p) (cwd p)) as [cwd_path|];
    unfold ensure_capsyschroot in Hmain; cbv zeta in Hmain.
  all: destruct (chroot_permitted m), (chroot_effective m); simpl in Hmain.
  all: try (injection Hmain as <- <-; simpl; exists []; split; [reflexivity|];
            split; [intros _; split; reflexivity | intros Hc; discriminate Hc]).
  all: assert (negb (strcmp (argv_at argv 1) "pid1" =? 0) = true
               <-> argv_at argv 1 <> "pid1") as Hpid
         by (rewrite negb_true_iff, Z.eqb_neq;
             rewrite (strcmp_eq _ "pid1" Hclient) by (simpl; repeat split; discriminate);
             reflexivity).
  all: destruct (negb (strcmp (argv_at argv 1) "pid1" =? 0)) eqn:Hcmp.
  all: try (assert (argv_at argv 1 <> "pid1") as Hne by (apply Hpid; reflexivity)).
  all: try (assert (argv_at argv 1 = "pid1") as He
              by (destruct (decide (argv_at argv 1 = "pid1")) as [?|Hn];
                  [assumption | apply Hpid in Hn; congruence])).
  all: unfold ensure_config_secure in Hmain; cbv zeta in Hmain.
  all: try destruct (config_secure m _) eqn:Hsec.
  all: try (apply (enter_client_trace _ _ _ _ _ _ _ _ Hclient) in Hmain
              as (added & Htr & Hnoconf & Hnodesc); simpl in Htr).
  all: try (injection Hmain as <- <-; simpl).
  - (* other client, secure configuration *)
    eexists. split; [rewrite Htr, <- !app_assoc; reflexivity|].
    split; [intros Hc; discriminate Hc|]. intros _.
    destruct (decide _) as [?|_]; [contradiction|].
    eexists. split; [reflexivity|]. intros Hc. unfold strcat in *. congruence.
  - (* other client, rejected configuration *)
    eexists. split; [rewrite <- !app_assoc; reflexivity|].
    split; [intros Hc; discriminate Hc|]. intros _.
    destruct (decide _) as [?|_]; [contradiction|].
    eexists. split; [reflexivity|]. intros _. split; reflexivity.
  - (* pid1 *)
    eexists. split; [rewrite Htr, <- !app_assoc; reflexivity|].
    split; [intros Hc; discriminate Hc|]. intros _.
    destruct (decide _) as [_|?]; [|contradiction].
    split.
    + intros c. rewrite elem_of_cons. intros [Hc|Hc]; [discriminate Hc|].
      exact (Hnoconf c Hc).
    + intros c. rewrite elem_of_cons. intros [Hc|Hc]; [discriminate Hc|].
      exact (Hnodesc He c Hc).
  - eexists. split; [rewrite Htr, <- !app_assoc; reflexivity|].
    split; [intros Hc; discriminate Hc|]. intros _.
    destruct (decide _) as [?|_]; [contradiction|].
    eexists. split; [reflexivity|]. intros Hc. unfold strcat in *. congruence.
  - eexists. split; [rewrite <- !app_assoc; reflexivity|].
    split; [intros Hc; discriminate Hc|]. intros _.
    destruct (decide _) as [?|_]; [contradiction|].
    eexists. split; [reflexivity|]. intros _. split; reflexivity.
  - eexists. split; [rewrite Htr, <- !app_assoc; reflexivity|].
    split; [intros Hc; discriminate Hc|]. intros _.
    destruct (decide _) as [_|?]; [|contradiction].
    split.
    + intros c. rewrite elem_of_cons. intros [Hc|Hc]; [discriminate Hc|].
      exact (Hnoconf c Hc).
    + intros c. rewrite elem_of_cons. intros [Hc|Hc]; [discriminate Hc|].
      exact (Hnodesc He c Hc).
Qed.

End Generic.

Import BrcExamples.

Lemma C7_ascent_terminates_witness :
  exists j,
    (j <= 2)%nat
    /\ root_like chain 50%nat (Nat.iter (S j) (up chain 50%nat) (root jailed)) = true
    /\ (forall i, (i < j)%nat ->
          root_like chain 50%nat (Nat.iter (S i) (up chain 50%nat) (root jailed)) = false)
    /\ forall fuel, (S j <= fuel)%nat ->
         exists p',
           break_out_of_chroot fuel chain jailed = Goes tt p'
           /\ cwd p' = Nat.iter (S j) (up chain 50%nat) (root jailed)
           /\ root p' = Nat.iter (S j) (up chain 50%nat) (root jailed).
Proof.
  exact (C7_ascent_terminates chain jailed 50%nat 2%nat eq_refl eq_refl).
Defined.


Lemma enter_client_cases_witness :
  let differs :=
    negb (same_file (lstat_dir chain (cwd escaped))
            (lstat chain escaped "/bedrock/clients/alpha" (uninit_stat chain))) in
  if decide (argv_at argv_alpha 1 = "pid1" \/ differs = false) then
    root entered.2 = cwd escaped
    /\ exists cmd, trace entered.2
                   = trace escaped ++ [ChrootHere; RestoreCwd "/home"; Execvp cmd]
  else
    match resolve chain escaped "/bedrock/clients/alpha" with
    | None => entered.1 = Exited 1
              /\ trace entered.2 = trace escaped ++ [Descend "/bedrock/clients/alpha"]
    | Some d =>
        root entered.2 = d
        /\ exists cmd,
             trace entered.2
             = trace escaped
                 ++ [Descend "/bedrock/clients/alpha"; ChrootHere; RestoreCwd "/home";
                     Execvp cmd]
    end.
Proof.
  apply (enter_client_cases 5 chain argv_alpha "/bedrock/clients/alpha" "/home"
           jailed escaped entered.1 entered.2).
  - simpl. repeat split; discriminate.
  - vm_compute. reflexivity.
  - vm_compute. reflexivity.
Defined.


Lemma brc_main_checks_witness :
  exists added,
    trace ran.2 = trace jailed ++ EnsureCapSysChroot (argv_at argv_alpha 0) :: added
    /\ (chroot_permitted chain && chroot_effective chain = false ->
        ran.1 = Exited 1 /\ added = [])
    /\ (chroot_permitted chain && chroot_effective chain = true ->
        if decide (argv_at argv_alpha 1 = "pid1") then
          (forall c, EnsureConfigSecure c ∉ added) /\ (forall c, Descend c ∉ added)
        else
          exists rest,
            added = EnsureConfigSecure
                      (strcat (strcat CONFIGDIR (argv_at argv_alpha 1)) ".conf") :: rest
            /\ (config_secure chain
                  (strcat (strcat CONFIGDIR (argv_at argv_alpha 1)) ".conf") = false ->
                ran.1 = Exited 1 /\ rest = [])).
Proof.
  apply (brc_main_checks 5 chain argv_alpha jailed ran.1 ran.2).
  - vm_compute. reflexivity.
  - simpl. lia.
  - simpl. repeat split; discriminate.
Defined.

Example alpha_run :
  ran.1 = Replaced ["ls"]
  /\ root ran.2 = 7%nat
  /\ trace ran.2 = [EnsureCapSysChroot "brc";
                    EnsureConfigSecure "/bedrock/etc/clients.d/alpha.conf";
                    BreakOutOfChroot; Descend "/bedrock/clients/alpha"; ChrootHere;
                    RestoreCwd "/home"; Execvp ["ls"]].
Proof. vm_compute. repeat split; reflexivity. Qed.

End BrcFacts.
